(** * TagsInput: the tag collection manager of VoTT

    A shallow embedding of
    [src/react/components/common/tagsInput/tagsInput.tsx]: the component
    state, React's [setState] (shallow merge, then the completion callback
    on the committed state), and the handlers [handleAddition],
    [handleEditedTag], [handleDelete], [handleDrag], [handleTagClick],
    [handleCloseModal], [componentDidUpdate] and the helper [getTag].

    Conventions of the embedding.
    - A handler takes the component instance ([this]: props and state) and
      returns the instance after the handler together with the callbacks
      it made on its props, in order.  Handlers run to completion one at
      a time, so inside a [setState] updater [this.state] and [prevState]
      are the same state.
    - A nullable JS value is an [option]; [None] is [null]/[undefined].
      Array elements are objects, as their declared types [ITag[]] and
      [IReactTag[]] say.
    - A JS exception is the [Throw] result. *)

From Stdlib Require Import String.
From Stdlib Require Import List ZArith Bool Lia Permutation.
Import ListNotations.

Local Open Scope string_scope.
Local Open Scope list_scope.
Local Open Scope Z_scope.

(** ** JavaScript values *)

(** A colour is a string, or [undefined] when read past the palette. *)
Definition Color : Type := option string.

(** The numbers the component computes with: integers, and [NaN], which
    [x % 0] produces. *)
Inductive number : Type :=
| NaN
| Int (z : Z).

(** [x + 1] *)
Definition number_succ (x : number) : number :=
  match x with
  | NaN => NaN
  | Int z => Int (z + 1)
  end.

(** [x % n] for an array length [n]: the remainder has the sign of the
    dividend, and is [NaN] when [n] is [0]. *)
Definition number_rem (x : number) (n : nat) : number :=
  match x with
  | NaN => NaN
  | Int z => if Z.of_nat n =? 0 then NaN else Int (Z.rem z (Z.of_nat n))
  end.

(** [arr[x]]: [undefined] unless [x] is an index of [arr]. *)
Definition array_get {A : Type} (arr : list A) (x : number) : option A :=
  match x with
  | NaN => None
  | Int z => if z <? 0 then None else nth_error arr (Z.to_nat z)
  end.

Inductive Exn : Type :=
| TypeError
| Error (message : string).

Inductive Result (A : Type) : Type :=
| Return (a : A)
| Throw (e : Exn).

Arguments Return {A} a.
Arguments Throw {A} e.

(** [Array.prototype.filter] with the two-argument callback
    [(element, index)]. *)
Fixpoint filter_from {A : Type} (f : A -> nat -> bool) (index : nat) (l : list A) : list A :=
  match l with
  | [] => []
  | x :: l' =>
      if f x index then x :: filter_from f (S index) l' else filter_from f (S index) l'
  end.

Definition Array_filter {A : Type} (f : A -> nat -> bool) (l : list A) : list A :=
  filter_from f 0%nat l.

(** [Array.prototype.splice(start, deleteCount, ...items)], the array after
    the call.  A negative [start] counts from the end, [start] is clamped
    to the length and [deleteCount] to what is left after [start]. *)
Definition splice_start (len : nat) (start : Z) : nat :=
  if start <? 0 then Z.to_nat (Z.max (Z.of_nat len + start) 0)
  else Z.to_nat (Z.min start (Z.of_nat len)).

Definition splice {A : Type} (l : list A) (start deleteCount : Z) (items : list A) : list A :=
  let s := splice_start (List.length l) start in
  let d := Z.to_nat (Z.min (Z.max deleteCount 0) (Z.of_nat (List.length l - s))) in
  firstn s l ++ items ++ skipn (s + d) l.

(** ** Data model *)

(** [ITag] of [models/applicationState]: the externally visible record. *)
Module ITag.
Record t : Type := mk { name : string; color : Color }.
End ITag.

(** The markup [ReactTagHtml(name, color)] builds: a colour box and the
    name, with the click handler of the component. *)
Inductive ReactElement : Type :=
| TagHtml (name : string) (color : Color).

(** The [text: any] field: what the input widget put there, or the markup
    the component generated. *)
Inductive any : Type :=
| anyUndefined
| anyString (s : string)
| anyElement (e : ReactElement).

Module IReactTag.
Record t : Type := mk { id : string; text : any; color : Color }.
End IReactTag.

(** An array of tags handed over by the caller: compared by identity
    ([!==]), read by content. *)
Record TagArray : Type := mkTagArray { addr : nat; elems : list ITag.t }.

(** The [tags] prop: an array, or one of the two empty values. *)
Inductive TagsProp : Type :=
| tags_undefined
| tags_null
| tags_array (arr : TagArray).

(** The list the prop carries. *)
Definition elems_of (tags : TagsProp) : list ITag.t :=
  match tags with
  | tags_array arr => elems arr
  | tags_undefined | tags_null => []
  end.

Module ITagsInputProps.
(** [onChange] is always there; [onTagClick] and [onTagShiftClick] are
    optional, the flags say whether the caller supplied them. *)
Record t : Type := mk {
  tags : TagsProp;
  onTagClick : bool;
  onTagShiftClick : bool
}.
End ITagsInputProps.

Module ITagsInputState.
Record t : Type := mk {
  tags : list IReactTag.t;
  currentTagColorIndex : number;
  selectedTag : option IReactTag.t;
  showModal : bool
}.
End ITagsInputState.

Module Props := ITagsInputProps.
Module State := ITagsInputState.

(** The object a partial [setState] passes: the fields it names. *)
Record PartialState : Type := mkPartial {
  set_tags : option (list IReactTag.t);
  set_currentTagColorIndex : option number;
  set_selectedTag : option (option IReactTag.t);
  set_showModal : option bool
}.

Definition merge (st : State.t) (p : PartialState) : State.t :=
  State.mk
    (match set_tags p with Some v => v | None => State.tags st end)
    (match set_currentTagColorIndex p with Some v => v | None => State.currentTagColorIndex st end)
    (match set_selectedTag p with Some v => v | None => State.selectedTag st end)
    (match set_showModal p with Some v => v | None => State.showModal st end).

(** The component instance. *)
Record TagsInput : Type := mkTagsInput { props : Props.t; state : State.t }.

(** Calls the component makes on its props. *)
Inductive Event : Type :=
| onChange (tags : list ITag.t)
| onTagClick (tag : option ITag.t)
| onTagShiftClick (tag : option ITag.t).

(** [this.setState(updater, callback)]: the updater's partial state is
    merged into the state, the result is committed, and only then the
    callback runs, reading the committed [this]. *)
Definition setState (this : TagsInput) (updater : State.t -> PartialState)
    (callback : option (TagsInput -> list Event)) : TagsInput * list Event :=
  let committed := mkTagsInput (props this) (merge (state this) (updater (state this))) in
  (committed, match callback with Some cb => cb committed | None => [] end).

(** [KeyCodes] *)
Module KeyCodes.
Definition comma : Z := 188.
Definition enter : Z := 13.
Definition backspace : Z := 8.
End KeyCodes.

(** The deletion event: [keyCode] is [undefined] for a click. *)
Record DeleteEvent : Type := mkDeleteEvent { keyCode : option Z }.

(** [event.keyCode === code] *)
Definition strict_eq_keyCode (k : option Z) (code : Z) : bool :=
  match k with
  | Some k => k =? code
  | None => false
  end.

(** The click event [handleTagClick] reads. *)
Record ClickEvent : Type := mkClickEvent {
  currentTarget_innerText : string;
  target_innerText : string;
  ctrlKey : bool;
  shiftKey : bool
}.

(** What can happen to a mounted component: the four operations of the
    input widget and the editor modal, a re-render with new props, a click
    on a tag, and closing the modal. *)
Inductive Op : Type :=
| Add (reactTag : IReactTag.t)
| Rename (newTag : option ITag.t)
| Delete (i : Z) (event : DeleteEvent)
| Reorder (tag : IReactTag.t) (fromIndex toIndex : Z)
| Refresh (newProps : Props.t)
| Click (event : ClickEvent)
| CloseModal.

(** ** Sample data

    The palette and tags of the scenarios: a palette of three colours, the
    tags [A] (red) and [B] (blue) as the component stores them, tags as
    the input widget hands them over, and a
    component holding [A] and [B] with the cursor on the third colour,
    idle or with [A] open in the editor. *)

Definition palette : list string := ["red"; "blue"; "green"].

Definition stored (name color : string) : IReactTag.t :=
  IReactTag.mk name (anyElement (TagHtml name (Some color))) (Some color).

Definition typed (name : string) : IReactTag.t :=
  IReactTag.mk name (anyString name) None.

Definition tagA : IReactTag.t := stored "A" "red".
Definition tagB : IReactTag.t := stored "B" "blue".

Definition noProps : Props.t := Props.mk tags_null false false.

Definition mouse : DeleteEvent := mkDeleteEvent None.
Definition backspaceKey : DeleteEvent := mkDeleteEvent (Some 8).

Definition holdingAB : TagsInput :=
  mkTagsInput noProps (State.mk [tagA; tagB] (Int 2) None false).

Definition editingA : TagsInput :=
  mkTagsInput noProps (State.mk [tagA; tagB] (Int 2) (Some tagA) true).

Definition ctrlClick (name : string) : ClickEvent :=
  mkClickEvent name name true false.

Definition refreshed : Props.t :=
  Props.mk (tags_array (mkTagArray 1 [ITag.mk "X" (Some "pink"); ITag.mk "Y" (Some "pink")]))
    false false.

Definition refreshedTwice : Props.t :=
  Props.mk (tags_array (mkTagArray 2 [ITag.mk "X" (Some "pink"); ITag.mk "X" (Some "grey")]))
    false false.

(** Add, select, recolor, delete, reorder, refresh, close. *)
Definition session : list Op :=
  [ Add (typed "A"); Add (typed "B"); Click (ctrlClick "A");
    Rename (Some (ITag.mk "A" (Some "yellow")));
    Rename (Some (ITag.mk "C" (Some "yellow")));
    Delete 0 mouse; Delete 7 backspaceKey;
    Reorder (stored "B" "blue") 0 0;
    Refresh refreshed; CloseModal ].

(** A component whose caller listens to clicks but not to shift-clicks,
    a click with the shift key, a component whose selected tag is not in
    the Collection, and the list of [holdingAB] handed back as a prop. *)
Definition listening : TagsInput :=
  mkTagsInput (Props.mk tags_null true false)
    (State.mk [tagA; tagB] (Int 2) None false).

Definition shiftClick (name : string) : ClickEvent :=
  mkClickEvent name name false true.

Definition orphaned : TagsInput :=
  mkTagsInput noProps
    (State.mk [tagA; tagB] (Int 2) (Some (stored "Z" "green")) true).

Definition echoed : Props.t :=
  Props.mk (tags_array (mkTagArray 9 [ITag.mk "A" (Some "red"); ITag.mk "B" (Some "blue")]))
    false false.

Section Component.

(** [TagColors]: the palette of [tagColors.json]. *)
Variable TagColors : list string.

(** *** Helpers *)

Definition ReactTagHtml (name : string) (color : Color) : any :=
  anyElement (TagHtml name color).

(** [toReactTag] on an object. *)
Definition toReactTag_element (element : ITag.t) : IReactTag.t :=
  IReactTag.mk (ITag.name element)
    (ReactTagHtml (ITag.name element) (ITag.color element))
    (ITag.color element).

(** [toReactTag]: [null] for a [null] tag. *)
Definition toReactTag (tag : option ITag.t) : option IReactTag.t :=
  match tag with
  | None => None
  | Some tag => Some (toReactTag_element tag)
  end.

(** [toItag] on an object. *)
Definition toItag_element (element : IReactTag.t) : ITag.t :=
  ITag.mk (IReactTag.id element) (IReactTag.color element).

(** [toItag]: [null] for a [null] tag. *)
Definition toItag (tag : option IReactTag.t) : option ITag.t :=
  match tag with
  | None => None
  | Some tag => Some (toItag_element tag)
  end.

(** [addHtml]: [tag.text = this.ReactTagHtml(tag.id, tag.color)] *)
Definition addHtml (tag : IReactTag.t) : IReactTag.t :=
  IReactTag.mk (IReactTag.id tag)
    (ReactTagHtml (IReactTag.id tag) (IReactTag.color tag))
    (IReactTag.color tag).

(** [toReactTags]: the empty array for a prop that is not an array. *)
Definition toReactTags (tags : TagsProp) : list IReactTag.t :=
  match tags with
  | tags_array arr => map toReactTag_element (elems arr)
  | tags_undefined | tags_null => []
  end.

Definition toITags (tags : list IReactTag.t) : list ITag.t :=
  map toItag_element tags.

(** The callback every mutating handler hands to [setState]:
    [() => this.props.onChange(this.toITags(this.state.tags))] *)
Definition notify : option (TagsInput -> list Event) :=
  Some (fun this => [onChange (toITags (State.tags (state this)))]).

(** [prevProps.tags !== this.props.tags]: identity of the two arrays. *)
Definition strict_neq (a b : TagsProp) : bool :=
  match a, b with
  | tags_undefined, tags_undefined => false
  | tags_null, tags_null => false
  | tags_array x, tags_array y => negb (Nat.eqb (addr x) (addr y))
  | _, _ => true
  end.

(** *** Construction *)

(** [constructor(props)].  [random] is what
    [randomIntInRange(0, TagColors.length)] returned; that helper lives
    in [common/utils]. *)
Definition constructor (props : Props.t) (random : Z) : TagsInput :=
  mkTagsInput props
    (State.mk (toReactTags (Props.tags props)) (Int random) None false).

(** [componentDidUpdate(prevProps)], run after React installed the new
    props in [this]. *)
Definition componentDidUpdate (this : TagsInput) (prevProps : Props.t) : TagsInput * list Event :=
  if strict_neq (Props.tags prevProps) (Props.tags (props this)) then
    setState this
      (fun _ => mkPartial (Some (toReactTags (Props.tags (props this)))) None None None)
      None
  else (this, []).

(** *** Helpers on the state *)

(** [getTag(id)] *)
Definition getTag (this : TagsInput) (id : string) : Result IReactTag.t :=
  match find (fun tag => String.eqb (IReactTag.id tag) id) (State.tags (state this)) with
  | Some match_ => Return match_
  | None => Throw (Error (String.append "No tag by id: " id))
  end.

(** *** UI handlers *)

(** [handleTagClick(event)] *)
Definition handleTagClick (this : TagsInput) (event : ClickEvent) : Result (TagsInput * list Event) :=
  let text :=
    if String.eqb (currentTarget_innerText event) "" then target_innerText event
    else currentTarget_innerText event in
  match getTag this text with
  | Throw e => Throw e
  | Return tag =>
      if ctrlKey event then
        Return (setState this (fun _ => mkPartial None None (Some (Some tag)) (Some true)) None)
      else if shiftKey event && Props.onTagShiftClick (props this) then
        Return (this, [onTagShiftClick (toItag (Some tag))])
      else if Props.onTagClick (props this) then
        Return (this, [onTagClick (toItag (Some tag))])
      else Return (this, [])
  end.

(** [handleDrag(tag, currPos, newPos)] *)
Definition handleDrag (this : TagsInput) (tag : IReactTag.t) (currPos newPos : Z) : TagsInput * list Event :=
  let tags := State.tags (state this) in
  let newTags := tags in
  let newTags := splice newTags currPos 1 [] in
  let newTags := splice newTags newPos 0 [tag] in
  setState this (fun _ => mkPartial (Some newTags) None None None) notify.

(** [handleCloseModal()] *)
Definition handleCloseModal (this : TagsInput) : TagsInput * list Event :=
  setState this (fun _ => mkPartial None None None (Some false)) None.

(** *** Tag operations *)

(** [handleAddition(reactTag)].  The source writes the colour and the
    markup into the object the widget hands over and stores that object;
    [reactTag] below is that object after the two writes.  The widget
    builds a new object for each addition, so the object is none of the
    entries the Collection already holds. *)
Definition handleAddition (this : TagsInput) (reactTag : IReactTag.t) : TagsInput * list Event :=
  let reactTag :=
    IReactTag.mk (IReactTag.id reactTag) (IReactTag.text reactTag)
      (array_get TagColors (State.currentTagColorIndex (state this))) in
  let reactTag := addHtml reactTag in
  setState this
    (fun prevState =>
       mkPartial
         (Some (State.tags (state this) ++ [reactTag]))
         (Some (number_rem (number_succ (State.currentTagColorIndex prevState))
                  (List.length TagColors)))
         None None)
    notify.

(** [handleEditedTag(newTag)] *)
Definition handleEditedTag (this : TagsInput) (newTag : option ITag.t) : Result (TagsInput * list Event) :=
  match toReactTag newTag with
  | None => Throw TypeError
  | Some newReactTag =>
      match State.selectedTag (state this) with
      | None => Throw TypeError
      | Some selectedTag =>
          if negb (String.eqb (IReactTag.id newReactTag) (IReactTag.id selectedTag))
             && existsb (fun t => String.eqb (IReactTag.id t) (IReactTag.id newReactTag))
                  (State.tags (state this))
          then Return (this, [])
          else
            let newReactTag := addHtml newReactTag in
            Return
              (setState this
                 (fun prevState =>
                    mkPartial
                      (Some (map (fun reactTag =>
                                    if String.eqb (IReactTag.id reactTag) (IReactTag.id selectedTag)
                                    then newReactTag else reactTag)
                               (State.tags prevState)))
                      None None (Some false))
                 notify)
      end
  end.

(** [handleDelete(i, event)] *)
Definition handleDelete (this : TagsInput) (i : Z) (event : DeleteEvent) : TagsInput * list Event :=
  if strict_eq_keyCode (keyCode event) KeyCodes.backspace then (this, [])
  else
    let tags := State.tags (state this) in
    setState this
      (fun _ => mkPartial
                  (Some (Array_filter (fun _ index => negb (Z.of_nat index =? i)) tags))
                  None None None)
      notify.

(** ** The component as a transition system *)

(** A re-render: React installs the new props, keeps the state and calls
    [componentDidUpdate] with the previous props. *)
Definition receiveProps (this : TagsInput) (newProps : Props.t) : TagsInput * list Event :=
  componentDidUpdate (mkTagsInput newProps (state this)) (props this).

Definition step (this : TagsInput) (op : Op) : Result (TagsInput * list Event) :=
  match op with
  | Add reactTag => Return (handleAddition this reactTag)
  | Rename newTag => handleEditedTag this newTag
  | Delete i event => Return (handleDelete this i event)
  | Reorder tag fromIndex toIndex => Return (handleDrag this tag fromIndex toIndex)
  | Refresh newProps => Return (receiveProps this newProps)
  | Click event => handleTagClick this event
  | CloseModal => Return (handleCloseModal this)
  end.

(** The component after [op]; a handler that throws does so before any
    [setState], so the component is as it was. *)
Definition after (this : TagsInput) (op : Op) : TagsInput :=
  match step this op with
  | Return (this', _) => this'
  | Throw _ => this
  end.

(** The calls [op] makes on the props. *)
Definition emitted (this : TagsInput) (op : Op) : list Event :=
  match step this op with
  | Return (_, events) => events
  | Throw _ => []
  end.

(** The components after each operation of a sequence, in order. *)
Fixpoint trace (this : TagsInput) (ops : list Op) : list TagsInput :=
  match ops with
  | [] => []
  | op :: ops' => after this op :: trace (after this op) ops'
  end.

(** The component after a whole sequence. *)
Definition run (this : TagsInput) (ops : list Op) : TagsInput :=
  fold_left after ops this.

(** The Collection and its names. *)
Definition collection (this : TagsInput) : list IReactTag.t :=
  State.tags (state this).

Definition names (this : TagsInput) : list string :=
  map IReactTag.id (collection this).

Definition unique (this : TagsInput) : Prop :=
  NoDup (names this).

(** The names a caller's list carries. *)
Definition names_of (tags : TagsProp) : list string :=
  map ITag.name (elems_of tags).

(** The operations the widget and the modal invoke, as opposed to the
    inbound refresh and the selection interface. *)
Definition is_operation (op : Op) : bool :=
  match op with
  | Add _ | Rename _ | Delete _ _ | Reorder _ _ _ => true
  | Refresh _ | Click _ | CloseModal => false
  end.

(** The guards in the code that decline an operation: the backspace key
    in [handleDelete], the name collision in [handleEditedTag]. *)
Definition declined (this : TagsInput) (op : Op) : bool :=
  match op with
  | Delete _ event => strict_eq_keyCode (keyCode event) KeyCodes.backspace
  | Rename (Some newTag) =>
      match State.selectedTag (state this) with
      | Some selectedTag =>
          negb (String.eqb (ITag.name newTag) (IReactTag.id selectedTag))
          && existsb (fun t => String.eqb (IReactTag.id t) (ITag.name newTag)) (collection this)
      | None => false
      end
  | _ => false
  end.

(** What an operation must carry for the names to stay distinct: a new
    tag has a name not yet in the Collection, a dragged tag has the name
    of the element at the position it is dragged from, and a refreshed
    list has distinct names. *)
Definition admissible_op (this : TagsInput) (op : Op) : Prop :=
  match op with
  | Add reactTag => ~ In (IReactTag.id reactTag) (names this)
  | Reorder tag fromIndex _ =>
      0 <= fromIndex /\
      exists moved, nth_error (collection this) (Z.to_nat fromIndex) = Some moved
                    /\ IReactTag.id moved = IReactTag.id tag
  | Refresh newProps => NoDup (names_of (Props.tags newProps))
  | Rename _ | Delete _ _ | Click _ | CloseModal => True
  end.

Fixpoint admissible (this : TagsInput) (ops : list Op) : Prop :=
  match ops with
  | [] => True
  | op :: ops' => admissible_op this op /\ admissible (after this op) ops'
  end.

(** Removing and inserting at a position, the two steps the reorder is
    compared with. *)
Definition remove_at {A : Type} (n : nat) (l : list A) : list A :=
  firstn n l ++ skipn (S n) l.

Definition insert_at {A : Type} (n : nat) (x : A) (l : list A) : list A :=
  firstn n l ++ x :: skipn n l.

(** The tag [handleAddition] stores for the widget's [reactTag]. *)
Definition coloured (this : TagsInput) (reactTag : IReactTag.t) : IReactTag.t :=
  let color := array_get TagColors (State.currentTagColorIndex (state this)) in
  IReactTag.mk (IReactTag.id reactTag)
    (ReactTagHtml (IReactTag.id reactTag) color) color.

(** The component [handleEditedTag] commits when the guard lets it. *)
Definition renamed (this : TagsInput) (newTag : ITag.t) (selectedTag : IReactTag.t) : TagsInput :=
  mkTagsInput (props this)
    (State.mk
       (map (fun reactTag =>
               if String.eqb (IReactTag.id reactTag) (IReactTag.id selectedTag)
               then toReactTag_element newTag else reactTag)
          (collection this))
       (State.currentTagColorIndex (state this))
       (State.selectedTag (state this))
       false).

(** How many additions a sequence holds. *)
Definition is_Add (op : Op) : bool :=
  match op with
  | Add _ => true
  | _ => false
  end.

Definition adds (ops : list Op) : nat :=
  length (filter is_Add ops).

(** The text a click is read from:
    [event.currentTarget.innerText || event.target.innerText]. *)
Definition innerText_of (event : ClickEvent) : string :=
  if String.eqb (currentTarget_innerText event) "" then target_innerText event
  else currentTarget_innerText event.

(** A stored tag whose markup shows its own name and colour, as
    [addHtml] leaves it. *)
Definition marked (tag : IReactTag.t) : Prop :=
  IReactTag.text tag = ReactTagHtml (IReactTag.id tag) (IReactTag.color tag).

Definition all_marked (this : TagsInput) : Prop :=
  Forall marked (collection this).

(** The tag a drag hands over is one the component marked up. *)
Definition drags_marked (op : Op) : Prop :=
  match op with
  | Reorder tag _ _ => marked tag
  | _ => True
  end.

(** The cursor is an index of the palette. *)
Definition cursor_in_range (this : TagsInput) : Prop :=
  exists c, State.currentTagColorIndex (state this) = Int c
            /\ 0 <= c < Z.of_nat (length TagColors).

(** Replacing the entry at a position. *)
Definition replace_at {A : Type} (n : nat) (x : A) (l : list A) : list A :=
  firstn n l ++ x :: skipn (S n) l.

(** The Selection: the tag targeted for edit, which is the tag the
    editor modal shows while it is open ([render] hands it
    [selectedTag] together with [showModal]); none while it is closed. *)
Definition selection (this : TagsInput) : option IReactTag.t :=
  if State.showModal (state this) then State.selectedTag (state this) else None.

(** A notification payload that is the whole Collection, in order, each
    tag as its name and colour. *)
Definition carries (collection : list IReactTag.t) (payload : list ITag.t) : Prop :=
  length payload = length collection
  /\ forall i reactTag,
       nth_error collection i = Some reactTag ->
       nth_error payload i
       = Some (ITag.mk (IReactTag.id reactTag) (IReactTag.color reactTag)).

(** ** Arrays *)

Lemma filter_from_In {A : Type} (f : A -> nat -> bool) (l : list A) :
  forall index x, In x (filter_from f index l) -> In x l.
Proof.
  induction l as [|a l IH]; intros index x; simpl; [tauto|].
  destruct (f a index); simpl; intros H.
  - destruct H as [H|H]; [now left | right; eauto].
  - right; eauto.
Qed.

Lemma filter_from_NoDup {A B : Type} (g : A -> B) (f : A -> nat -> bool) (l : list A) :
  forall index, NoDup (map g l) -> NoDup (map g (filter_from f index l)).
Proof.
  induction l as [|a l IH]; intros index; simpl; [trivial|].
  intros H. inversion H as [|? ? Hnotin Hnd]; subst.
  destruct (f a index); simpl; [|now apply IH].
  constructor; [|now apply IH].
  intros Hin. apply Hnotin.
  apply in_map_iff in Hin. destruct Hin as (x & Hx & Hin).
  apply in_map_iff. exists x. split; [exact Hx|].
  eapply filter_from_In; eassumption.
Qed.

Lemma filter_from_keep_all {A : Type} (i : Z) (l : list A) :
  forall index, (forall j, (index <= j < index + length l)%nat -> Z.of_nat j <> i) ->
    filter_from (fun _ j => negb (Z.of_nat j =? i)) index l = l.
Proof.
  induction l as [|a l IH]; intros index H; simpl; [reflexivity|].
  destruct (Z.eqb_spec (Z.of_nat index) i) as [E|E]; simpl.
  - exfalso. apply (H index); [simpl; lia | exact E].
  - f_equal. apply IH. intros j Hj. apply H. simpl. lia.
Qed.

(** Filtering out one index removes that position. *)
Lemma filter_from_remove_at {A : Type} (l : list A) :
  forall index n, (index <= n)%nat ->
    filter_from (fun _ j => negb (Z.of_nat j =? Z.of_nat n)) index l
    = remove_at (n - index) l.
Proof.
  unfold remove_at.
  induction l as [|a l IH]; intros index n Hle; simpl.
  - now rewrite firstn_nil.
  - destruct (Z.eqb_spec (Z.of_nat index) (Z.of_nat n)) as [E|E]; simpl.
    + assert (index = n) by lia. subst.
      rewrite Nat.sub_diag. simpl.
      apply filter_from_keep_all. intros j Hj. lia.
    + assert (n - index = S (n - S index))%nat as -> by lia.
      simpl. f_equal. apply IH. lia.
Qed.

Lemma Array_filter_delete_in_range {A : Type} (l : list A) (i : Z) :
  0 <= i < Z.of_nat (length l) ->
  Array_filter (fun _ j => negb (Z.of_nat j =? i)) l = remove_at (Z.to_nat i) l.
Proof.
  intros Hi. unfold Array_filter.
  pose proof (filter_from_remove_at l 0 (Z.to_nat i) (Nat.le_0_l _)) as H.
  rewrite Z2Nat.id, Nat.sub_0_r in H by lia.
  exact H.
Qed.

Lemma Array_filter_delete_out_of_range {A : Type} (l : list A) (i : Z) :
  ~ (0 <= i < Z.of_nat (length l)) ->
  Array_filter (fun _ j => negb (Z.of_nat j =? i)) l = l.
Proof.
  intros Hi. unfold Array_filter.
  apply filter_from_keep_all. intros j Hj E. apply Hi. lia.
Qed.

Lemma remove_at_length {A : Type} (n : nat) (l : list A) :
  (n < length l)%nat -> length (remove_at n l) = (length l - 1)%nat.
Proof.
  intros H. unfold remove_at.
  rewrite length_app, length_firstn, length_skipn. lia.
Qed.

Lemma remove_at_nth_before {A : Type} (n j : nat) (l : list A) :
  (j < n)%nat -> nth_error (remove_at n l) j = nth_error l j.
Proof.
  intros H. unfold remove_at.
  destruct (Nat.lt_ge_cases j (length l)) as [Hj|Hj].
  - rewrite nth_error_app1 by (rewrite length_firstn; lia).
    rewrite nth_error_firstn.
    destruct (Nat.ltb_spec j n); [reflexivity | lia].
  - rewrite firstn_all2 by lia. rewrite skipn_all2 by lia.
    now rewrite app_nil_r.
Qed.

Lemma remove_at_nth_after {A : Type} (n j : nat) (l : list A) :
  (n <= j)%nat -> nth_error (remove_at n l) j = nth_error l (S j).
Proof.
  intros H. unfold remove_at.
  destruct (Nat.lt_ge_cases n (length l)) as [Hn|Hn].
  - rewrite nth_error_app2 by (rewrite length_firstn; lia).
    rewrite length_firstn, nth_error_skipn.
    f_equal. lia.
  - rewrite firstn_all2 by lia. rewrite skipn_all2 by lia.
    rewrite app_nil_r.
    transitivity (@None A); [|symmetry]; apply nth_error_None; lia.
Qed.

Lemma remove_at_middle {A : Type} (front : list A) (x : A) (back : list A) :
  remove_at (length front) (front ++ x :: back) = front ++ back.
Proof.
  unfold remove_at.
  induction front as [|a front IH]; simpl; [reflexivity|].
  f_equal. exact IH.
Qed.

Lemma remove_at_insert_at {A : Type} (n : nat) (x : A) (l : list A) :
  (n <= length l)%nat -> remove_at n (insert_at n x l) = l.
Proof.
  intros H. unfold insert_at.
  assert (length (firstn n l) = n) as E by (rewrite length_firstn; lia).
  rewrite <- E at 1.
  rewrite remove_at_middle. apply firstn_skipn.
Qed.

Lemma splice_start_in_range (len : nat) (start : Z) :
  0 <= start <= Z.of_nat len -> splice_start len start = Z.to_nat start.
Proof.
  intros H. unfold splice_start.
  destruct (Z.ltb_spec start 0); [lia|].
  f_equal. lia.
Qed.

Lemma splice_delete_one {A : Type} (l : list A) (start : Z) :
  0 <= start < Z.of_nat (length l) ->
  splice l start 1 [] = remove_at (Z.to_nat start) l.
Proof.
  intros H. unfold splice, remove_at.
  rewrite splice_start_in_range by lia.
  replace (Z.to_nat (Z.min (Z.max 1 0) (Z.of_nat (length l - Z.to_nat start))))
    with 1%nat by lia.
  now rewrite Nat.add_1_r.
Qed.

Lemma splice_insert_one {A : Type} (l : list A) (start : Z) (x : A) :
  splice l start 0 [x] = insert_at (splice_start (length l) start) x l.
Proof.
  unfold splice, insert_at.
  replace (Z.to_nat (Z.min (Z.max 0 0) (Z.of_nat (length l - splice_start (length l) start))))
    with 0%nat by lia.
  now rewrite Nat.add_0_r.
Qed.

Lemma insert_at_Permutation {A : Type} (n : nat) (x : A) (l : list A) :
  Permutation (insert_at n x l) (x :: l).
Proof.
  unfold insert_at. symmetry.
  rewrite <- (firstn_skipn n l) at 1.
  apply Permutation_middle.
Qed.

Lemma remove_at_Permutation {A : Type} (n : nat) (x : A) (l : list A) :
  nth_error l n = Some x -> Permutation (x :: remove_at n l) l.
Proof.
  intros H. apply nth_error_split in H.
  destruct H as (front & back & -> & <-).
  rewrite remove_at_middle. apply Permutation_middle.
Qed.

(** ** Names under the handlers *)

Lemma addHtml_id (tag : IReactTag.t) : IReactTag.id (addHtml tag) = IReactTag.id tag.
Proof. reflexivity. Qed.

Lemma addHtml_toReactTag_element (tag : ITag.t) :
  addHtml (toReactTag_element tag) = toReactTag_element tag.
Proof. reflexivity. Qed.

Lemma toReactTag_Some (tag : ITag.t) :
  toReactTag (Some tag) = Some (toReactTag_element tag).
Proof. reflexivity. Qed.

Lemma toItag_toReactTag_element (tag : ITag.t) :
  toItag_element (toReactTag_element tag) = tag.
Proof. now destruct tag. Qed.

Lemma toITags_toReactTags (tags : TagsProp) :
  toITags (toReactTags tags) = elems_of tags.
Proof.
  destruct tags as [| |arr]; simpl; try reflexivity.
  unfold toITags. rewrite map_map.
  rewrite <- (map_id (elems arr)) at 2.
  apply map_ext. exact toItag_toReactTag_element.
Qed.

Lemma names_toReactTags (tags : TagsProp) :
  map IReactTag.id (toReactTags tags) = names_of tags.
Proof.
  destruct tags as [| |arr]; simpl; try reflexivity.
  unfold names_of. simpl. now rewrite map_map.
Qed.

Lemma existsb_id_In (key : string) (l : list IReactTag.t) :
  existsb (fun t => String.eqb (IReactTag.id t) key) l = true
  <-> In key (map IReactTag.id l).
Proof.
  rewrite existsb_exists, in_map_iff.
  split; intros (t & H1 & H2); exists t.
  - apply String.eqb_eq in H2. now split.
  - split; [exact H2 | now apply String.eqb_eq].
Qed.

(** Replacing the entries named [key] by [new]: the names stay as they
    were when [new] is named [key]. *)
Lemma replace_same_name (key : string) (new : IReactTag.t) (l : list IReactTag.t) :
  IReactTag.id new = key ->
  map IReactTag.id
    (map (fun t => if String.eqb (IReactTag.id t) key then new else t) l)
  = map IReactTag.id l.
Proof.
  intros E. rewrite map_map. apply map_ext. intros t.
  destruct (String.eqb_spec (IReactTag.id t) key); congruence.
Qed.

Lemma replace_fresh_In (key : string) (new : IReactTag.t) (l : list IReactTag.t) (x : string) :
  In x (map IReactTag.id
          (map (fun t => if String.eqb (IReactTag.id t) key then new else t) l)) ->
  In x (map IReactTag.id l) \/ (x = IReactTag.id new /\ In key (map IReactTag.id l)).
Proof.
  induction l as [|a l IH]; simpl; [tauto|].
  intros [H|H].
  - destruct (String.eqb_spec (IReactTag.id a) key); subst; auto.
  - destruct (IH H) as [H'|[H1 H2]]; auto.
Qed.

Lemma replace_fresh_NoDup (key : string) (new : IReactTag.t) (l : list IReactTag.t) :
  ~ In (IReactTag.id new) (map IReactTag.id l) ->
  NoDup (map IReactTag.id l) ->
  NoDup (map IReactTag.id
           (map (fun t => if String.eqb (IReactTag.id t) key then new else t) l)).
Proof.
  induction l as [|a l IH]; simpl; intros Hfresh Hnd; [constructor|].
  inversion Hnd as [|? ? Hnotin Hnd']; subst.
  constructor; [|apply IH; tauto].
  destruct (String.eqb_spec (IReactTag.id a) key) as [E|E];
    intros Hin; apply replace_fresh_In in Hin.
  - destruct Hin as [Hin|[_ Hin]]; [tauto|]. subst. tauto.
  - destruct Hin as [Hin|[Hin _]]; [tauto|]. tauto.
Qed.

Lemma replace_NoDup (key : string) (new : IReactTag.t) (l : list IReactTag.t) :
  IReactTag.id new = key \/ ~ In (IReactTag.id new) (map IReactTag.id l) ->
  NoDup (map IReactTag.id l) ->
  NoDup (map IReactTag.id
           (map (fun t => if String.eqb (IReactTag.id t) key then new else t) l)).
Proof.
  intros [E|Hfresh] Hnd.
  - now rewrite replace_same_name.
  - now apply replace_fresh_NoDup.
Qed.

Lemma reorder_NoDup (l : list IReactTag.t) (tag moved : IReactTag.t) (n m : nat) :
  nth_error l n = Some moved ->
  IReactTag.id moved = IReactTag.id tag ->
  NoDup (map IReactTag.id l) ->
  NoDup (map IReactTag.id (insert_at m tag (remove_at n l))).
Proof.
  intros Hnth Hid Hnd.
  eapply Permutation_NoDup; [|exact Hnd].
  symmetry.
  etransitivity; [apply Permutation_map, insert_at_Permutation|].
  simpl. rewrite <- Hid.
  change (Permutation (map IReactTag.id (moved :: remove_at n l)) (map IReactTag.id l)).
  apply Permutation_map. now apply remove_at_Permutation.
Qed.

(** ** What each handler does to the Collection *)

Lemma handleAddition_collection (this : TagsInput) (reactTag : IReactTag.t) :
  collection (fst (handleAddition this reactTag))
  = collection this ++ [coloured this reactTag].
Proof. reflexivity. Qed.

Lemma handleAddition_cursor (this : TagsInput) (reactTag : IReactTag.t) :
  State.currentTagColorIndex (state (fst (handleAddition this reactTag)))
  = number_rem (number_succ (State.currentTagColorIndex (state this))) (length TagColors).
Proof. reflexivity. Qed.

Lemma handleAddition_events (this : TagsInput) (reactTag : IReactTag.t) :
  snd (handleAddition this reactTag)
  = [onChange (toITags (collection (fst (handleAddition this reactTag))))].
Proof. reflexivity. Qed.

Lemma handleDelete_backspace (this : TagsInput) (i : Z) (event : DeleteEvent) :
  strict_eq_keyCode (keyCode event) KeyCodes.backspace = true ->
  handleDelete this i event = (this, []).
Proof. intros H. unfold handleDelete. now rewrite H. Qed.

Lemma handleDelete_collection (this : TagsInput) (i : Z) (event : DeleteEvent) :
  strict_eq_keyCode (keyCode event) KeyCodes.backspace = false ->
  collection (fst (handleDelete this i event))
  = Array_filter (fun _ index => negb (Z.of_nat index =? i)) (collection this).
Proof. intros H. unfold handleDelete. now rewrite H. Qed.

Lemma handleDelete_events (this : TagsInput) (i : Z) (event : DeleteEvent) :
  strict_eq_keyCode (keyCode event) KeyCodes.backspace = false ->
  snd (handleDelete this i event)
  = [onChange (toITags (collection (fst (handleDelete this i event))))].
Proof. intros H. unfold handleDelete. now rewrite H. Qed.

Lemma handleDrag_collection (this : TagsInput) (tag : IReactTag.t) (currPos newPos : Z) :
  collection (fst (handleDrag this tag currPos newPos))
  = splice (splice (collection this) currPos 1 []) newPos 0 [tag].
Proof. reflexivity. Qed.

Lemma handleDrag_events (this : TagsInput) (tag : IReactTag.t) (currPos newPos : Z) :
  snd (handleDrag this tag currPos newPos)
  = [onChange (toITags (collection (fst (handleDrag this tag currPos newPos))))].
Proof. reflexivity. Qed.

(** The guard of [handleEditedTag], read on the names. *)
Lemma rename_guard (this : TagsInput) (newTag : ITag.t) (selectedTag : IReactTag.t) :
  negb (String.eqb (ITag.name newTag) (IReactTag.id selectedTag))
  && existsb (fun t => String.eqb (IReactTag.id t) (ITag.name newTag)) (collection this)
  = true
  <-> ITag.name newTag <> IReactTag.id selectedTag /\ In (ITag.name newTag) (names this).
Proof.
  rewrite andb_true_iff, negb_true_iff, existsb_id_In.
  destruct (String.eqb_spec (ITag.name newTag) (IReactTag.id selectedTag)); split;
    intros [H1 H2]; split; congruence || assumption.
Qed.

Lemma rename_guard_false (this : TagsInput) (newTag : ITag.t) (selectedTag : IReactTag.t) :
  negb (String.eqb (ITag.name newTag) (IReactTag.id selectedTag))
  && existsb (fun t => String.eqb (IReactTag.id t) (ITag.name newTag)) (collection this)
  = false
  <-> ITag.name newTag = IReactTag.id selectedTag \/ ~ In (ITag.name newTag) (names this).
Proof.
  rewrite andb_false_iff, negb_false_iff, String.eqb_eq.
  rewrite <- not_true_iff_false, existsb_id_In. reflexivity.
Qed.

Lemma handleEditedTag_declined (this : TagsInput) (newTag : ITag.t) (selectedTag : IReactTag.t) :
  State.selectedTag (state this) = Some selectedTag ->
  ITag.name newTag <> IReactTag.id selectedTag ->
  In (ITag.name newTag) (names this) ->
  handleEditedTag this (Some newTag) = Return (this, []).
Proof.
  intros Hsel Hne Hin. unfold handleEditedTag.
  rewrite toReactTag_Some, Hsel.
  change (IReactTag.id (toReactTag_element newTag)) with (ITag.name newTag).
  fold (collection this).
  now rewrite (proj2 (rename_guard this newTag selectedTag) (conj Hne Hin)).
Qed.

Lemma handleEditedTag_applied (this : TagsInput) (newTag : ITag.t) (selectedTag : IReactTag.t) :
  State.selectedTag (state this) = Some selectedTag ->
  ITag.name newTag = IReactTag.id selectedTag \/ ~ In (ITag.name newTag) (names this) ->
  handleEditedTag this (Some newTag)
  = Return (renamed this newTag selectedTag,
            [onChange (toITags (collection (renamed this newTag selectedTag)))]).
Proof.
  intros Hsel Hok. unfold handleEditedTag.
  rewrite toReactTag_Some, Hsel.
  change (IReactTag.id (toReactTag_element newTag)) with (ITag.name newTag).
  fold (collection this).
  now rewrite (proj2 (rename_guard_false this newTag selectedTag) Hok).
Qed.

Lemma handleEditedTag_cases (this : TagsInput) (newTag : option ITag.t) :
  (exists e, handleEditedTag this newTag = Throw e)
  \/ handleEditedTag this newTag = Return (this, [])
  \/ (exists tag selectedTag,
        newTag = Some tag /\ State.selectedTag (state this) = Some selectedTag
        /\ (ITag.name tag = IReactTag.id selectedTag \/ ~ In (ITag.name tag) (names this))
        /\ handleEditedTag this newTag
           = Return (renamed this tag selectedTag,
                     [onChange (toITags (collection (renamed this tag selectedTag)))])).
Proof.
  destruct newTag as [tag|]; [|left; now exists TypeError].
  destruct (State.selectedTag (state this)) as [selectedTag|] eqn:Hsel.
  2:{ left. exists TypeError. unfold handleEditedTag. now rewrite toReactTag_Some, Hsel. }
  destruct (String.eqb_spec (ITag.name tag) (IReactTag.id selectedTag)) as [E|E].
  - right; right. exists tag, selectedTag.
    repeat split; auto. apply handleEditedTag_applied; auto.
  - destruct (in_dec string_dec (ITag.name tag) (names this)) as [Hin|Hin].
    + right; left. now apply handleEditedTag_declined with selectedTag.
    + right; right. exists tag, selectedTag.
      repeat split; auto. apply handleEditedTag_applied; auto.
Qed.

Lemma handleTagClick_collection (this this' : TagsInput) (event : ClickEvent) (events : list Event) :
  handleTagClick this event = Return (this', events) ->
  collection this' = collection this
  /\ State.currentTagColorIndex (state this') = State.currentTagColorIndex (state this)
  /\ forall tags, ~ In (onChange tags) events.
Proof.
  unfold handleTagClick.
  destruct (getTag this _) as [tag|e]; [|discriminate].
  destruct (ctrlKey event).
  - intros [= <- <-]. repeat split. intros tags [].
  - destruct (shiftKey event && Props.onTagShiftClick (props this)).
    + intros [= <- <-]. repeat split. intros tags [H|[]]. discriminate.
    + destruct (Props.onTagClick (props this)); intros [= <- <-]; repeat split.
      * intros tags [H|[]]. discriminate.
      * intros tags [].
Qed.

(** ** Uniqueness of names *)

Lemma after_Add (this : TagsInput) (reactTag : IReactTag.t) :
  after this (Add reactTag) = fst (handleAddition this reactTag).
Proof. reflexivity. Qed.

Lemma after_Delete (this : TagsInput) (i : Z) (event : DeleteEvent) :
  after this (Delete i event) = fst (handleDelete this i event).
Proof. unfold after. simpl. now destruct (handleDelete this i event). Qed.

Lemma after_Reorder (this : TagsInput) (tag : IReactTag.t) (fromIndex toIndex : Z) :
  after this (Reorder tag fromIndex toIndex) = fst (handleDrag this tag fromIndex toIndex).
Proof. reflexivity. Qed.

Lemma after_Refresh (this : TagsInput) (newProps : Props.t) :
  after this (Refresh newProps) = fst (receiveProps this newProps).
Proof. unfold after. simpl. now destruct (receiveProps this newProps). Qed.

Lemma after_unique (this : TagsInput) (op : Op) :
  unique this -> admissible_op this op -> unique (after this op).
Proof.
  unfold unique, names. intros Hnd Hop.
  destruct op as [reactTag|newTag|i event|tag fromIndex toIndex|newProps|event|].
  - (* Add *)
    rewrite after_Add, handleAddition_collection, map_app. simpl.
    eapply Permutation_NoDup; [apply Permutation_cons_append|].
    constructor; assumption.
  - (* Rename *)
    unfold after. simpl.
    destruct (handleEditedTag_cases this newTag)
      as [[e ->]|[->|(tag & selectedTag & _ & _ & Hok & ->)]]; try assumption.
    unfold renamed, collection. simpl.
    apply replace_NoDup; assumption.
  - (* Delete *)
    rewrite after_Delete.
    destruct (strict_eq_keyCode (keyCode event) KeyCodes.backspace) eqn:G.
    + now rewrite handleDelete_backspace.
    + rewrite handleDelete_collection by assumption.
      now apply filter_from_NoDup.
  - (* Reorder *)
    destruct Hop as (Hfrom & moved & Hnth & Hid).
    rewrite after_Reorder, handleDrag_collection.
    assert (Z.to_nat fromIndex < length (collection this))%nat as Hlt
      by (apply nth_error_Some; congruence).
    rewrite splice_delete_one by lia.
    rewrite splice_insert_one.
    eapply reorder_NoDup; eassumption.
  - (* Refresh *)
    rewrite after_Refresh.
    unfold receiveProps, componentDidUpdate. simpl.
    destruct (strict_neq _ _); simpl; [|assumption].
    unfold collection. simpl. now rewrite names_toReactTags.
  - (* Click *)
    unfold after. simpl.
    destruct (handleTagClick this event) as [[this' events]|e] eqn:E; [|assumption].
    apply handleTagClick_collection in E. destruct E as (-> & _). assumption.
  - (* CloseModal *)
    assumption.
Qed.

(** C1, as the code has it.  Starting from pairwise-distinct names, the
    names stay pairwise distinct after every operation of a sequence in
    which each added tag carries a name not yet in the Collection, each
    dragged tag carries the name of the element at the position it is
    dragged from, and each refreshed list has pairwise-distinct names;
    Rename/Recolor and Delete need no condition. *)
Theorem uniqueness_preserved (this : TagsInput) (ops : list Op) :
  unique this -> admissible this ops -> Forall unique (trace this ops).
Proof.
  revert this. induction ops as [|op ops IH]; intros this Hu Hadm; simpl.
  - constructor.
  - destruct Hadm as [Hop Hrest].
    pose proof (after_unique this op Hu Hop) as Hu'.
    constructor; [exact Hu'|]. now apply IH.
Qed.

(** ** Notifications *)

Lemma carries_toITags (tags : list IReactTag.t) : carries tags (toITags tags).
Proof.
  split; [apply length_map|].
  intros i reactTag Hnth. unfold toITags. now rewrite nth_error_map, Hnth.
Qed.

(** C3, as the code has it.  An operation (Add, Rename/Recolor, Delete,
    Reorder) that returns emits at most one "tags changed" notification:
    none, with the component left exactly as it was, when its guard
    declines it (backspace Delete, colliding Rename), and exactly one
    otherwise, in particular whenever the Collection changed.  The
    payload is the committed Collection, complete and in order, each tag
    as its name and colour and nothing else. *)
Theorem notification_per_commit (this : TagsInput) (op : Op)
    (this' : TagsInput) (events : list Event) :
  is_operation op = true ->
  step this op = Return (this', events) ->
  (if declined this op then this' = this /\ events = []
   else events = [onChange (toITags (collection this'))])
  /\ (collection this' <> collection this ->
      events = [onChange (toITags (collection this'))])
  /\ (forall payload, In (onChange payload) events ->
      carries (collection this') payload).
Proof.
  intros Hop Hstep.
  assert (if declined this op then this' = this /\ events = []
          else events = [onChange (toITags (collection this'))]) as H.
  { destruct op as [reactTag|newTag|i event|tag fromIndex toIndex|newProps|event|];
      try discriminate; simpl in Hstep |- *.
    - injection Hstep as <- <-. reflexivity.
    - destruct newTag as [tag|]; [|discriminate].
      destruct (State.selectedTag (state this)) as [selectedTag|] eqn:Hsel.
      2:{ unfold handleEditedTag in Hstep. rewrite toReactTag_Some, Hsel in Hstep.
          discriminate. }
      destruct (negb _ && _) eqn:G.
      + apply rename_guard in G. destruct G as [G1 G2].
        rewrite (handleEditedTag_declined this tag selectedTag Hsel G1 G2) in Hstep.
        injection Hstep as <- <-. now split.
      + apply rename_guard_false in G.
        rewrite (handleEditedTag_applied this tag selectedTag Hsel G) in Hstep.
        injection Hstep as <- <-. reflexivity.
    - destruct (strict_eq_keyCode (keyCode event) KeyCodes.backspace) eqn:G.
      + rewrite handleDelete_backspace in Hstep by assumption.
        injection Hstep as <- <-. now split.
      + pose proof (handleDelete_events this i event G) as E.
        destruct (handleDelete this i event) as [t ev].
        injection Hstep as <- <-. exact E.
    - injection Hstep as <- <-. reflexivity. }
  split; [exact H|]. split.
  - intros Hchanged. destruct (declined this op); [|exact H].
    destruct H as [-> _]. contradiction.
  - intros payload Hin. destruct (declined this op).
    + destruct H as [_ ->]. destruct Hin.
    + rewrite H in Hin. destruct Hin as [[= <-]|[]].
      apply carries_toITags.
Qed.

(** C2, as the code has it.  [handleAddition] makes no duplicate check
    (the input widget that calls it does): whatever name it is handed,
    in the Collection already or not, it returns, the names are the old
    ones followed by that name, the new last entry is the tag of that
    name with the colour at the cursor and its markup, the cursor moves
    on by one modulo the palette size, and one notification carries the
    whole new list. *)
Theorem addition_unchecked (this : TagsInput) (reactTag : IReactTag.t) :
  exists this' payload,
    step this (Add reactTag) = Return (this', [onChange payload])
    /\ names this' = names this ++ [IReactTag.id reactTag]
    /\ nth_error (collection this') (length (collection this))
       = Some (IReactTag.mk (IReactTag.id reactTag)
                 (ReactTagHtml (IReactTag.id reactTag)
                    (array_get TagColors (State.currentTagColorIndex (state this))))
                 (array_get TagColors (State.currentTagColorIndex (state this))))
    /\ State.currentTagColorIndex (state this')
       = number_rem (number_succ (State.currentTagColorIndex (state this)))
           (length TagColors)
    /\ carries (collection this') payload.
Proof.
  exists (fst (handleAddition this reactTag)),
         (toITags (collection (fst (handleAddition this reactTag)))).
  split; [reflexivity|].
  unfold names. rewrite handleAddition_collection.
  split; [now rewrite map_app|].
  split; [now rewrite nth_error_app2, Nat.sub_diag by lia|].
  split; [apply handleAddition_cursor|].
  rewrite <- handleAddition_collection. apply carries_toITags.
Qed.

(** ** Colour rotation *)

Lemma run_cons (this : TagsInput) (op : Op) (ops : list Op) :
  run this (op :: ops) = run (after this op) ops.
Proof. reflexivity. Qed.

Lemma run_snoc (this : TagsInput) (ops : list Op) (op : Op) :
  run this (ops ++ [op]) = after (run this ops) op.
Proof. unfold run. now rewrite fold_left_app. Qed.

(** Only an addition moves the cursor. *)
Lemma cursor_moves_only_on_add (this : TagsInput) (op : Op) :
  is_Add op = false ->
  State.currentTagColorIndex (state (after this op))
  = State.currentTagColorIndex (state this).
Proof.
  intros Hop.
  destruct op as [reactTag|newTag|i event|tag fromIndex toIndex|newProps|event|].
  - discriminate.
  - unfold after. simpl.
    destruct (handleEditedTag_cases this newTag)
      as [[e ->]|[->|(tag & selectedTag & _ & _ & _ & ->)]]; reflexivity.
  - rewrite after_Delete. unfold handleDelete.
    now destruct (strict_eq_keyCode _ _).
  - reflexivity.
  - rewrite after_Refresh. unfold receiveProps, componentDidUpdate. simpl.
    now destruct (strict_neq _ _).
  - unfold after. simpl.
    destruct (handleTagClick this event) as [[this' events]|e] eqn:E; [|reflexivity].
    apply handleTagClick_collection in E. tauto.
  - reflexivity.
Qed.

Lemma cursor_step (c : Z) :
  0 <= c < Z.of_nat (length TagColors) ->
  number_rem (number_succ (Int c)) (length TagColors)
  = Int ((c + 1) mod Z.of_nat (length TagColors)).
Proof.
  intros Hc. cbn [number_succ number_rem].
  destruct (Z.eqb_spec (Z.of_nat (length TagColors)) 0) as [E|E]; [lia|].
  now rewrite Z.rem_mod_nonneg by lia.
Qed.

Lemma cursor_run (ops : list Op) :
  forall this c,
    State.currentTagColorIndex (state this) = Int c ->
    0 <= c < Z.of_nat (length TagColors) ->
    State.currentTagColorIndex (state (run this ops))
    = Int ((c + Z.of_nat (adds ops)) mod Z.of_nat (length TagColors)).
Proof.
  induction ops as [|op ops IH]; intros this c Hcur Hc.
  - simpl. now rewrite Z.add_0_r, Z.mod_small.
  - rewrite run_cons. destruct (is_Add op) eqn:Hop.
    + destruct op; try discriminate.
      assert (adds (Add reactTag :: ops) = S (adds ops)) as -> by reflexivity.
      rewrite (IH _ ((c + 1) mod Z.of_nat (length TagColors))).
      * rewrite Zplus_mod_idemp_l. f_equal. f_equal. lia.
      * rewrite after_Add, handleAddition_cursor, Hcur. now apply cursor_step.
      * apply Z.mod_pos_bound. lia.
    + assert (adds (op :: ops) = adds ops) as ->
        by (unfold adds; simpl; now rewrite Hop).
      apply IH; [|exact Hc].
      now rewrite cursor_moves_only_on_add.
Qed.

Lemma array_get_in_range (c : Z) :
  0 <= c < Z.of_nat (length TagColors) ->
  exists color, array_get TagColors (Int c) = Some color
                /\ nth_error TagColors (Z.to_nat c) = Some color.
Proof.
  intros Hc. unfold array_get.
  destruct (Z.ltb_spec c 0); [lia|].
  destruct (nth_error TagColors (Z.to_nat c)) as [color|] eqn:E.
  - now exists color.
  - apply nth_error_None in E. lia.
Qed.

(** C4.  With a palette of [P] colours and the cursor set at construction
    to the drawn index [c0] in [[0, P)], after any sequence of operations
    holding [k] additions the cursor is [(c0 + k) mod P] (no addition is
    turned down, and nothing else moves the cursor), and the addition that
    comes after [i] earlier ones appends, at the end of the Collection,
    its tag with the palette colour of index [(c0 + i) mod P]. *)
Theorem color_rotation (props : Props.t) (c0 : Z) (ops : list Op) :
  0 <= c0 < Z.of_nat (length TagColors) ->
  let P := Z.of_nat (length TagColors) in
  let this0 := constructor props c0 in
  State.currentTagColorIndex (state this0) = Int c0
  /\ State.currentTagColorIndex (state (run this0 ops))
     = Int ((c0 + Z.of_nat (adds ops)) mod P)
  /\ forall before reactTag later,
       ops = before ++ Add reactTag :: later ->
       exists color,
         nth_error TagColors (Z.to_nat ((c0 + Z.of_nat (adds before)) mod P)) = Some color
         /\ collection (run this0 (before ++ [Add reactTag]))
            = collection (run this0 before)
              ++ [IReactTag.mk (IReactTag.id reactTag)
                    (ReactTagHtml (IReactTag.id reactTag) (Some color))
                    (Some color)].
Proof.
  intros Hc P this0.
  split; [reflexivity|]. split.
  - now apply cursor_run.
  - intros before reactTag later _.
    assert (0 <= (c0 + Z.of_nat (adds before)) mod P < P) as Hi
      by (apply Z.mod_pos_bound; lia).
    destruct (array_get_in_range _ Hi) as (color & Hget & Hcol).
    exists color. split; [exact Hcol|].
    rewrite run_snoc, after_Add, handleAddition_collection.
    unfold coloured.
    rewrite (cursor_run before this0 c0 eq_refl Hc).
    fold P. now rewrite Hget.
Qed.

(** ** Rename and recolor *)

(** C5.  A Rename/Recolor whose new name differs from the selected tag's
    name and already occurs in the Collection returns with the component
    exactly as it was (the Collection, the selected tag and the open
    modal) and emits nothing. *)
Theorem rename_rejected (this : TagsInput) (newTag : ITag.t) (selectedTag : IReactTag.t) :
  State.selectedTag (state this) = Some selectedTag ->
  ITag.name newTag <> IReactTag.id selectedTag ->
  In (ITag.name newTag) (names this) ->
  step this (Rename (Some newTag)) = Return (this, []).
Proof. exact (handleEditedTag_declined this newTag selectedTag). Qed.

(** C6.  A Rename/Recolor that passes the duplicate check returns; the
    entry named as the selected tag is replaced, at its position, by the
    new tag data, all other entries stay; the selection is cleared (the
    editor modal is closed, so no tag is targeted for edit any more); one
    notification carries the whole updated list.  The [selectedTag] field
    itself keeps the tag, and the cursor does not move. *)
Theorem rename_applied (this : TagsInput) (newTag : ITag.t) (selectedTag : IReactTag.t) :
  State.selectedTag (state this) = Some selectedTag ->
  ITag.name newTag = IReactTag.id selectedTag \/ ~ In (ITag.name newTag) (names this) ->
  exists this',
    step this (Rename (Some newTag))
    = Return (this', [onChange (toITags (collection this'))])
    /\ length (collection this') = length (collection this)
    /\ (forall i reactTag,
          nth_error (collection this) i = Some reactTag ->
          nth_error (collection this') i
          = Some (if String.eqb (IReactTag.id reactTag) (IReactTag.id selectedTag)
                  then toReactTag_element newTag else reactTag))
    /\ (forall i reactTag,
          nth_error (collection this) i = Some reactTag ->
          nth_error (toITags (collection this')) i
          = Some (if String.eqb (IReactTag.id reactTag) (IReactTag.id selectedTag)
                  then newTag else toItag_element reactTag))
    /\ selection this' = None
    /\ State.showModal (state this') = false
    /\ State.selectedTag (state this') = Some selectedTag
    /\ State.currentTagColorIndex (state this') = State.currentTagColorIndex (state this).
Proof.
  intros Hsel Hok. exists (renamed this newTag selectedTag).
  split; [exact (handleEditedTag_applied this newTag selectedTag Hsel Hok)|].
  unfold renamed, collection, selection; simpl.
  split; [apply length_map|].
  split; [|split; [|auto]].
  - intros i reactTag Hnth. now rewrite nth_error_map, Hnth.
  - intros i reactTag Hnth. unfold toITags.
    rewrite !nth_error_map, Hnth. simpl.
    destruct (String.eqb (IReactTag.id reactTag) (IReactTag.id selectedTag));
      [now rewrite toItag_toReactTag_element | reflexivity].
Qed.

(** ** Delete *)

(** C7.  Delete with the backspace key code returns with the component as
    it was, whatever the index.  With any other trigger it returns too;
    for an index in range the Collection loses exactly the element at
    that position, the elements before it stay in place and the ones
    after it move one position down; for an index out of range the
    Collection is as it was. *)
Theorem delete_behaviour (this : TagsInput) (i : Z) (event : DeleteEvent) :
  (strict_eq_keyCode (keyCode event) KeyCodes.backspace = true ->
   step this (Delete i event) = Return (this, []))
  /\ (strict_eq_keyCode (keyCode event) KeyCodes.backspace = false ->
      exists this' events,
        step this (Delete i event) = Return (this', events)
        /\ (0 <= i < Z.of_nat (length (collection this)) ->
            collection this' = remove_at (Z.to_nat i) (collection this)
            /\ length (collection this') = (length (collection this) - 1)%nat
            /\ (forall j, (j < Z.to_nat i)%nat ->
                  nth_error (collection this') j = nth_error (collection this) j)
            /\ (forall j, (Z.to_nat i <= j)%nat ->
                  nth_error (collection this') j = nth_error (collection this) (S j)))
        /\ (~ 0 <= i < Z.of_nat (length (collection this)) ->
            collection this' = collection this)).
Proof.
  split.
  - intros G. simpl. now rewrite handleDelete_backspace.
  - intros G.
    exists (fst (handleDelete this i event)), (snd (handleDelete this i event)).
    split; [simpl; now destruct (handleDelete this i event)|].
    rewrite handleDelete_collection by exact G.
    split.
    + intros Hi. rewrite Array_filter_delete_in_range by exact Hi.
      split; [reflexivity|].
      split; [apply remove_at_length; lia|].
      split; intros j Hj.
      * now apply remove_at_nth_before.
      * now apply remove_at_nth_after.
    + intros Hi. now apply Array_filter_delete_out_of_range.
Qed.

(** ** Reorder *)

(** C8.  For indices in range, Reorder leaves the Collection that results
    from removing the element at [fromIndex] and then inserting the [tag]
    argument at [toIndex] of the shortened sequence; the element at
    [toIndex] of the result is the [tag] argument, and without it the
    result is the shortened sequence, so the other elements keep their
    relative order. *)
Theorem reorder_semantics (this : TagsInput) (tag : IReactTag.t) (fromIndex toIndex : Z) :
  0 <= fromIndex < Z.of_nat (length (collection this)) ->
  0 <= toIndex < Z.of_nat (length (collection this)) ->
  let shortened := remove_at (Z.to_nat fromIndex) (collection this) in
  exists this',
    step this (Reorder tag fromIndex toIndex)
    = Return (this', [onChange (toITags (collection this'))])
    /\ collection this' = insert_at (Z.to_nat toIndex) tag shortened
    /\ nth_error (collection this') (Z.to_nat toIndex) = Some tag
    /\ remove_at (Z.to_nat toIndex) (collection this') = shortened.
Proof.
  intros Hfrom Hto shortened.
  exists (fst (handleDrag this tag fromIndex toIndex)).
  split; [reflexivity|].
  rewrite handleDrag_collection.
  rewrite splice_delete_one by exact Hfrom.
  rewrite splice_insert_one. fold shortened.
  assert (length shortened = (length (collection this) - 1)%nat) as Hlen
    by (apply remove_at_length; lia).
  rewrite splice_start_in_range by lia.
  split; [reflexivity|]. split.
  - unfold insert_at.
    rewrite nth_error_app2 by (rewrite length_firstn; lia).
    rewrite length_firstn.
    replace (Z.to_nat toIndex - Nat.min (Z.to_nat toIndex) (length shortened))%nat
      with 0%nat by lia.
    reflexivity.
  - apply remove_at_insert_at. lia.
Qed.

(** ** External refresh *)

(** C9.  A re-render whose [tags] prop is another array than the previous
    one rebuilds the Collection from it, in its order and with its names
    and colours, leaves the cursor (and the selection) alone, and emits
    nothing. *)
Theorem refresh_frame (this : TagsInput) (newProps : Props.t) :
  strict_neq (Props.tags (props this)) (Props.tags newProps) = true ->
  exists this',
    step this (Refresh newProps) = Return (this', [])
    /\ collection this' = toReactTags (Props.tags newProps)
    /\ toITags (collection this') = elems_of (Props.tags newProps)
    /\ State.currentTagColorIndex (state this') = State.currentTagColorIndex (state this)
    /\ State.selectedTag (state this') = State.selectedTag (state this)
    /\ State.showModal (state this') = State.showModal (state this).
Proof.
  intros Hneq.
  exists (mkTagsInput newProps
            (State.mk (toReactTags (Props.tags newProps))
               (State.currentTagColorIndex (state this))
               (State.selectedTag (state this))
               (State.showModal (state this)))).
  split.
  - simpl. unfold receiveProps, componentDidUpdate. simpl. now rewrite Hneq.
  - unfold collection. simpl. rewrite toITags_toReactTags. repeat split.
Qed.

(** ** Lookup *)

(** C10.  [getTag] returns a tag of the Collection named as asked when
    there is one (the first such), and throws the error
    [No tag by id: ...] when there is none; [handleTagClick], its caller,
    lets that error through. *)
Theorem lookup_contract (this : TagsInput) (id : string) :
  (In id (names this) ->
   exists tag, getTag this id = Return tag
               /\ In tag (collection this) /\ IReactTag.id tag = id)
  /\ (~ In id (names this) ->
      getTag this id = Throw (Error (String.append "No tag by id: " id))
      /\ forall event,
           (if String.eqb (currentTarget_innerText event) "" then target_innerText event
            else currentTarget_innerText event) = id ->
           step this (Click event) = Throw (Error (String.append "No tag by id: " id))).
Proof.
  unfold getTag. fold (collection this).
  destruct (find (fun tag => String.eqb (IReactTag.id tag) id) (collection this))
    as [tag|] eqn:F.
  - apply find_some in F. destruct F as [Hin Hid]. apply String.eqb_eq in Hid.
    split.
    + intros _. now exists tag.
    + intros Hno. exfalso. apply Hno. unfold names. rewrite <- Hid. now apply in_map.
  - split.
    + intros Hin. exfalso. unfold names in Hin. apply in_map_iff in Hin.
      destruct Hin as (tag & Hid & Hin).
      apply (find_none _ _ F) in Hin. apply String.eqb_neq in Hin. contradiction.
    + intros _. split; [reflexivity|].
      intros event Htext. simpl. unfold handleTagClick, getTag.
      rewrite Htext. fold (collection this). now rewrite F.
Qed.

(** ** Further properties of the handlers *)

(** *** Conversions *)

(** X1.  Converting a tag to the component's representation and back
    gives the tag again, [null] included, and so does converting a whole
    [tags] prop; converting a stored tag to a plain tag and back gives
    the stored tag with its markup regenerated. *)
Theorem tag_round_trip :
  (forall tag, toItag (toReactTag tag) = tag)
  /\ (forall tags, toITags (toReactTags tags) = elems_of tags)
  /\ (forall reactTag, toReactTag (toItag (Some reactTag)) = Some (addHtml reactTag)).
Proof.
  split; [|split].
  - intros [tag|]; simpl; [|reflexivity].
    now rewrite toItag_toReactTag_element.
  - exact toITags_toReactTags.
  - reflexivity.
Qed.

Lemma marked_toReactTag_element (tag : ITag.t) : marked (toReactTag_element tag).
Proof. reflexivity. Qed.

Lemma marked_addHtml (tag : IReactTag.t) : marked (addHtml tag).
Proof. reflexivity. Qed.

Lemma toReactTag_toItag_marked (reactTag : IReactTag.t) :
  marked reactTag -> toReactTag_element (toItag_element reactTag) = reactTag.
Proof.
  destruct reactTag as [id text color]. unfold marked. simpl. intros ->.
  reflexivity.
Qed.

Lemma toReactTags_toITags_marked (a : nat) (l : list IReactTag.t) :
  Forall marked l -> toReactTags (tags_array (mkTagArray a (toITags l))) = l.
Proof.
  intros H. simpl. unfold toITags. rewrite map_map.
  induction H as [|x l Hx _ IH]; simpl; [reflexivity|].
  now rewrite toReactTag_toItag_marked, IH.
Qed.

Lemma Forall_firstn_skipn {A : Type} (P : A -> Prop) (n m : nat) (l : list A) :
  Forall P l -> Forall P (firstn n l) /\ Forall P (skipn m l).
Proof.
  intros H. split.
  - rewrite <- (firstn_skipn n l) in H. now apply Forall_app in H.
  - rewrite <- (firstn_skipn m l) in H. now apply Forall_app in H.
Qed.

Lemma splice_Forall {A : Type} (P : A -> Prop) (l items : list A) (start deleteCount : Z) :
  Forall P l -> Forall P items -> Forall P (splice l start deleteCount items).
Proof.
  intros Hl Hitems. unfold splice.
  apply Forall_app. split; [exact (proj1 (Forall_firstn_skipn P _ 0%nat l Hl))|].
  apply Forall_app. split; [exact Hitems|].
  exact (proj2 (Forall_firstn_skipn P 0%nat _ l Hl)).
Qed.

Lemma after_marked (this : TagsInput) (op : Op) :
  all_marked this -> drags_marked op -> all_marked (after this op).
Proof.
  unfold all_marked. intros H Hop.
  destruct op as [reactTag|newTag|i event|tag fromIndex toIndex|newProps|event|].
  - rewrite after_Add, handleAddition_collection.
    apply Forall_app. split; [exact H|]. constructor; [reflexivity|constructor].
  - unfold after. simpl.
    destruct (handleEditedTag_cases this newTag)
      as [[e ->]|[->|(tag & selectedTag & _ & _ & _ & ->)]]; try assumption.
    unfold renamed, collection. simpl. fold (collection this).
    apply Forall_map. eapply Forall_impl; [|exact H].
    intros t Ht. simpl.
    destruct (String.eqb _ _); [apply marked_toReactTag_element | exact Ht].
  - rewrite after_Delete.
    destruct (strict_eq_keyCode (keyCode event) KeyCodes.backspace) eqn:G.
    + now rewrite handleDelete_backspace.
    + rewrite handleDelete_collection by assumption.
      apply Forall_forall. intros t Ht. apply filter_from_In in Ht.
      revert t Ht. now apply Forall_forall.
  - rewrite after_Reorder, handleDrag_collection.
    apply splice_Forall; [apply splice_Forall; [exact H|constructor]|].
    constructor; [exact Hop|constructor].
  - rewrite after_Refresh.
    unfold receiveProps, componentDidUpdate. simpl.
    destruct (strict_neq _ _); simpl; [|assumption].
    unfold collection. simpl.
    destruct (Props.tags newProps) as [| |arr]; simpl; try constructor.
    apply Forall_map, Forall_forall. intros t _. apply marked_toReactTag_element.
  - unfold after. simpl.
    destruct (handleTagClick this event) as [[this' events]|e] eqn:E; [|assumption].
    apply handleTagClick_collection in E. destruct E as (-> & _). assumption.
  - assumption.
Qed.

(** X2.  From construction on, whatever the operations, every stored
    tag carries the markup of its own name and colour, as long as the
    tags handed to Reorder are ones the component marked up. *)
Theorem markup_kept (props : Props.t) (random : Z) (ops : list Op) :
  Forall drags_marked ops ->
  all_marked (run (constructor props random) ops).
Proof.
  assert (all_marked (constructor props random)) as H0.
  { unfold all_marked, constructor, collection. simpl.
    destruct (Props.tags props) as [| |arr]; simpl; try constructor.
    apply Forall_map, Forall_forall. intros t _. apply marked_toReactTag_element. }
  generalize (constructor props random) H0. clear H0.
  induction ops as [|op ops IH]; intros this H0 Hops; [exact H0|].
  rewrite run_cons. inversion Hops; subst.
  apply IH; [now apply after_marked | assumption].
Qed.

(** X3.  When the caller hands back, as a new [tags] prop, the list the
    last notification carried, the refresh rebuilds the very Collection
    the component already holds. *)
Theorem echo_refresh_restores (this : TagsInput) (newProps : Props.t) (arr : TagArray) :
  all_marked this ->
  Props.tags newProps = tags_array arr ->
  elems arr = toITags (collection this) ->
  collection (after this (Refresh newProps)) = collection this.
Proof.
  intros Hm Htags Helems.
  rewrite after_Refresh. unfold receiveProps, componentDidUpdate. simpl.
  destruct (strict_neq _ _); simpl; [|reflexivity].
  unfold collection at 1. simpl. rewrite Htags.
  destruct arr as [a l]. simpl in Helems. subst l.
  now apply toReactTags_toITags_marked.
Qed.

(** *** Clicks and the selection *)

Lemma find_first {A : Type} (f : A -> bool) (l : list A) (x : A) :
  find f l = Some x ->
  exists i, nth_error l i = Some x
            /\ forall j y, (j < i)%nat -> nth_error l j = Some y -> f y = false.
Proof.
  induction l as [|a l IH]; simpl; [discriminate|].
  destruct (f a) eqn:Fa.
  - intros [= ->]. exists 0%nat. split; [reflexivity|]. intros j y Hj. lia.
  - intros H. destruct (IH H) as (i & Hi & Hbefore).
    exists (S i). split; [exact Hi|].
    intros [|j] y Hj; simpl.
    + now intros [= <-].
    + apply Hbefore. lia.
Qed.

Lemma getTag_In (this : TagsInput) (id : string) :
  In id (names this) ->
  exists tag, getTag this id = Return tag
              /\ In tag (collection this) /\ IReactTag.id tag = id.
Proof.
  intros Hin. unfold getTag. fold (collection this).
  destruct (find (fun tag => String.eqb (IReactTag.id tag) id) (collection this))
    as [tag|] eqn:F.
  - apply find_some in F. destruct F as [Ht Hid]. apply String.eqb_eq in Hid.
    now exists tag.
  - exfalso. unfold names in Hin. apply in_map_iff in Hin.
    destruct Hin as (tag & Hid & Ht).
    apply (find_none _ _ F) in Ht. apply String.eqb_neq in Ht. contradiction.
Qed.

(** X4.  [getTag] answers with the first tag of that name in display
    order: no tag before it has the name. *)
Theorem getTag_first (this : TagsInput) (id : string) (tag : IReactTag.t) :
  getTag this id = Return tag ->
  exists i, nth_error (collection this) i = Some tag
            /\ IReactTag.id tag = id
            /\ forall j other, (j < i)%nat -> nth_error (collection this) j = Some other ->
                               IReactTag.id other <> id.
Proof.
  unfold getTag. fold (collection this).
  destruct (find (fun tag => String.eqb (IReactTag.id tag) id) (collection this))
    as [found|] eqn:F; [|discriminate].
  intros [= ->].
  destruct (find_first _ _ _ F) as (i & Hi & Hbefore).
  apply find_some in F. destruct F as [_ Hid]. apply String.eqb_eq in Hid.
  exists i. split; [exact Hi|]. split; [exact Hid|].
  intros j other Hj Hnth. apply String.eqb_neq. now apply (Hbefore j).
Qed.

(** X5.  A click with the control key on a displayed name selects the
    tag of that name and opens the editor; the Collection and the cursor
    stay, and no callback is made. *)
Theorem ctrl_click_selects (this : TagsInput) (event : ClickEvent) :
  In (innerText_of event) (names this) ->
  ctrlKey event = true ->
  exists tag,
    step this (Click event)
    = Return (mkTagsInput (props this)
                (State.mk (collection this)
                   (State.currentTagColorIndex (state this)) (Some tag) true),
              [])
    /\ In tag (collection this)
    /\ IReactTag.id tag = innerText_of event.
Proof.
  intros Hin Hctrl.
  destruct (getTag_In this _ Hin) as (tag & Hget & Htag & Hid).
  exists tag. split; [|now split].
  simpl. unfold handleTagClick. fold (innerText_of event).
  now rewrite Hget, Hctrl.
Qed.

(** X6.  A click without the control key on a displayed name leaves the
    component as it is and makes at most one callback, with the name and
    colour of the tag: [onTagShiftClick] when the shift key is down and
    that callback was supplied, otherwise [onTagClick] when that one was
    supplied (a shift-click without [onTagShiftClick] included),
    otherwise none. *)
Theorem click_dispatch (this : TagsInput) (event : ClickEvent) :
  In (innerText_of event) (names this) ->
  ctrlKey event = false ->
  exists tag,
    In tag (collection this)
    /\ IReactTag.id tag = innerText_of event
    /\ step this (Click event)
       = Return (this,
                 if shiftKey event && Props.onTagShiftClick (props this)
                 then [onTagShiftClick
                         (Some (ITag.mk (innerText_of event) (IReactTag.color tag)))]
                 else if Props.onTagClick (props this)
                      then [onTagClick
                              (Some (ITag.mk (innerText_of event) (IReactTag.color tag)))]
                      else []).
Proof.
  intros Hin Hctrl.
  destruct (getTag_In this _ Hin) as (tag & Hget & Htag & Hid).
  exists tag. split; [exact Htag|]. split; [exact Hid|].
  simpl. unfold handleTagClick. fold (innerText_of event).
  rewrite Hget, Hctrl. unfold toItag, toItag_element. rewrite Hid.
  destruct (shiftKey event && Props.onTagShiftClick (props this)); [reflexivity|].
  now destruct (Props.onTagClick (props this)).
Qed.

Lemma ctrl_click_selects_aux (this : TagsInput) (event : ClickEvent) :
  In (innerText_of event) (names this) ->
  ctrlKey event = true ->
  exists tag,
    after this (Click event)
    = mkTagsInput (props this)
        (State.mk (collection this)
           (State.currentTagColorIndex (state this)) (Some tag) true)
    /\ IReactTag.id tag = innerText_of event.
Proof.
  intros Hin Hctrl.
  destruct (getTag_In this _ Hin) as (tag & Hget & _ & Hid).
  exists tag. split; [|exact Hid].
  unfold after. simpl. unfold handleTagClick. fold (innerText_of event).
  now rewrite Hget, Hctrl.
Qed.

(** X7.  Selecting a displayed name with a control-click and then
    confirming the editor with a tag of the same name, or of a name not
    in the Collection, replaces the entries of the clicked name by the
    new tag, closes the editor, and notifies once with the new list. *)
Theorem select_then_rename (this : TagsInput) (event : ClickEvent) (newTag : ITag.t) :
  In (innerText_of event) (names this) ->
  ctrlKey event = true ->
  ITag.name newTag = innerText_of event \/ ~ In (ITag.name newTag) (names this) ->
  let selected := after this (Click event) in
  let done := after selected (Rename (Some newTag)) in
  collection done
  = map (fun reactTag =>
           if String.eqb (IReactTag.id reactTag) (innerText_of event)
           then toReactTag_element newTag else reactTag)
      (collection this)
  /\ State.showModal (state done) = false
  /\ emitted selected (Rename (Some newTag)) = [onChange (toITags (collection done))].
Proof.
  intros Hin Hctrl Hok selected done.
  destruct (ctrl_click_selects_aux this event Hin Hctrl) as (tag & Hsel & Hid).
  assert (State.selectedTag (state selected) = Some tag) as Hs
    by (unfold selected; now rewrite Hsel).
  assert (collection selected = collection this) as Hc
    by (unfold selected; now rewrite Hsel).
  assert (ITag.name newTag = IReactTag.id tag
          \/ ~ In (ITag.name newTag) (names selected)) as Hok'.
  { rewrite Hid. unfold names. rewrite Hc. exact Hok. }
  pose proof (handleEditedTag_applied selected newTag tag Hs Hok') as Hstep.
  unfold done, after, emitted. simpl. rewrite Hstep.
  unfold renamed, collection at 1 3. simpl. rewrite Hc, Hid.
  repeat split.
Qed.

(** *** Rename and recolor at the edges *)

(** X8.  Confirming the editor throws a [TypeError] when it is handed no
    tag or when no tag was ever selected, and only then: with a tag and a
    selection it returns. *)
Theorem rename_throws (this : TagsInput) (newTag : option ITag.t) :
  (newTag = None \/ State.selectedTag (state this) = None ->
   step this (Rename newTag) = Throw TypeError)
  /\ (newTag <> None -> State.selectedTag (state this) <> None ->
      exists this' events, step this (Rename newTag) = Return (this', events)).
Proof.
  simpl. unfold handleEditedTag. split.
  - intros [-> | Hsel]; [reflexivity|].
    destruct newTag as [tag|]; [|reflexivity].
    now rewrite toReactTag_Some, Hsel.
  - intros Hnew Hsel.
    destruct newTag as [tag|]; [|contradiction].
    destruct (State.selectedTag (state this)) as [selectedTag|]; [|contradiction].
    rewrite toReactTag_Some.
    destruct (negb _ && _); unfold setState; do 2 eexists; reflexivity.
Qed.

(** X9.  When the selected tag is no longer in the Collection (it was
    deleted, or a refresh dropped it), confirming the editor with its own
    name or with a name not in the Collection changes no entry, and still
    closes the editor and notifies with the unchanged list. *)
Theorem rename_stale_selection (this : TagsInput) (newTag : ITag.t) (selectedTag : IReactTag.t) :
  State.selectedTag (state this) = Some selectedTag ->
  ~ In (IReactTag.id selectedTag) (names this) ->
  ITag.name newTag = IReactTag.id selectedTag \/ ~ In (ITag.name newTag) (names this) ->
  step this (Rename (Some newTag))
  = Return (mkTagsInput (props this)
              (State.mk (collection this)
                 (State.currentTagColorIndex (state this)) (Some selectedTag) false),
            [onChange (toITags (collection this))]).
Proof.
  intros Hsel Hgone Hok. simpl.
  rewrite (handleEditedTag_applied this newTag selectedTag Hsel Hok).
  assert (map (fun reactTag =>
                 if String.eqb (IReactTag.id reactTag) (IReactTag.id selectedTag)
                 then toReactTag_element newTag else reactTag)
            (collection this) = collection this) as E.
  { rewrite <- (map_id (collection this)) at 2.
    apply map_ext_in. intros t Ht.
    destruct (String.eqb_spec (IReactTag.id t) (IReactTag.id selectedTag)) as [E|E];
      [|reflexivity].
    exfalso. apply Hgone. rewrite <- E. unfold names. now apply in_map. }
  unfold renamed. unfold collection at 2. simpl. rewrite E, Hsel. reflexivity.
Qed.

(** *** How the operations compose *)

Lemma insert_at_remove_at {A : Type} (n : nat) (x : A) (l : list A) :
  nth_error l n = Some x -> insert_at n x (remove_at n l) = l.
Proof.
  intros H. apply nth_error_split in H.
  destruct H as (front & back & -> & <-).
  rewrite remove_at_middle. unfold insert_at.
  rewrite firstn_app, firstn_all, Nat.sub_diag. simpl. rewrite app_nil_r.
  rewrite skipn_app, skipn_all, Nat.sub_diag. reflexivity.
Qed.

Lemma insert_at_length {A : Type} (n : nat) (x : A) (l : list A) :
  length (insert_at n x l) = S (length l).
Proof.
  rewrite (Permutation_length (insert_at_Permutation n x l)). reflexivity.
Qed.

(** X10.  Deleting the last position right after the addition of a name
    that was not in the Collection (with any trigger but backspace)
    gives back the Collection as it was before the addition.  The name
    being new, the tag handed over is none of the stored entries, so the
    addition writes into no entry the Collection already holds. *)
Theorem add_then_delete_last (this : TagsInput) (reactTag : IReactTag.t) (event : DeleteEvent) :
  ~ In (IReactTag.id reactTag) (names this) ->
  strict_eq_keyCode (keyCode event) KeyCodes.backspace = false ->
  collection (run this [Add reactTag; Delete (Z.of_nat (length (collection this))) event])
  = collection this.
Proof.
  intros _ G. unfold run. simpl fold_left.
  rewrite after_Delete, handleDelete_collection by exact G.
  rewrite after_Add, handleAddition_collection.
  rewrite Array_filter_delete_in_range by (rewrite length_app; simpl; lia).
  rewrite Nat2Z.id, remove_at_middle. apply app_nil_r.
Qed.

(** X11.  Dragging the tag at [fromIndex] to [toIndex] and then dragging
    it back from [toIndex] to [fromIndex] gives back the Collection as it
    was. *)
Theorem reorder_back (this : TagsInput) (tag : IReactTag.t) (fromIndex toIndex : Z) :
  0 <= fromIndex < Z.of_nat (length (collection this)) ->
  0 <= toIndex < Z.of_nat (length (collection this)) ->
  nth_error (collection this) (Z.to_nat fromIndex) = Some tag ->
  collection (run this [Reorder tag fromIndex toIndex; Reorder tag toIndex fromIndex])
  = collection this.
Proof.
  intros Hfrom Hto Hnth. unfold run. simpl fold_left.
  rewrite !after_Reorder, !handleDrag_collection.
  set (shortened := remove_at (Z.to_nat fromIndex) (collection this)).
  assert (length shortened = (length (collection this) - 1)%nat) as Hlen
    by (apply remove_at_length; lia).
  rewrite (splice_delete_one (collection this)) by exact Hfrom.
  fold shortened.
  rewrite (splice_insert_one shortened), splice_start_in_range by lia.
  rewrite splice_delete_one by (rewrite insert_at_length; lia).
  rewrite remove_at_insert_at by lia.
  rewrite splice_insert_one, splice_start_in_range by lia.
  now apply insert_at_remove_at.
Qed.

(** X12.  Dragging the tag found at [fromIndex] to any position, in
    range or not, rearranges the Collection: the same tags, each as often
    as before, and so the same number of them. *)
Theorem reorder_permutation (this : TagsInput) (tag : IReactTag.t) (fromIndex toIndex : Z) :
  0 <= fromIndex ->
  nth_error (collection this) (Z.to_nat fromIndex) = Some tag ->
  Permutation (collection (after this (Reorder tag fromIndex toIndex))) (collection this)
  /\ length (collection (after this (Reorder tag fromIndex toIndex)))
     = length (collection this).
Proof.
  intros Hfrom Hnth.
  assert (Permutation (collection (after this (Reorder tag fromIndex toIndex)))
            (collection this)) as HP.
  { rewrite after_Reorder, handleDrag_collection.
    assert (Z.to_nat fromIndex < length (collection this))%nat
      by (apply nth_error_Some; congruence).
    rewrite splice_delete_one by lia.
    rewrite splice_insert_one.
    etransitivity; [apply insert_at_Permutation|].
    now apply remove_at_Permutation. }
  split; [exact HP | now apply Permutation_length].
Qed.

(** X13.  A drag whose [fromIndex] lies at or past the end removes
    nothing: the tag handed over is inserted as one more entry. *)
Theorem reorder_from_past_end (this : TagsInput) (tag : IReactTag.t) (fromIndex toIndex : Z) :
  Z.of_nat (length (collection this)) <= fromIndex ->
  collection (after this (Reorder tag fromIndex toIndex))
  = insert_at (splice_start (length (collection this)) toIndex) tag (collection this)
  /\ length (collection (after this (Reorder tag fromIndex toIndex)))
     = S (length (collection this)).
Proof.
  intros Hfrom.
  assert (splice (collection this) fromIndex 1 [] = collection this) as E.
  { unfold splice, splice_start.
    destruct (Z.ltb_spec fromIndex 0); [lia|].
    replace (Z.to_nat (Z.min fromIndex (Z.of_nat (length (collection this)))))
      with (length (collection this)) by lia.
    rewrite Nat.sub_diag. simpl.
    rewrite firstn_all, skipn_all2 by lia. apply app_nil_r. }
  rewrite after_Reorder, handleDrag_collection, E, splice_insert_one.
  split; [reflexivity | apply insert_at_length].
Qed.

(** *** The cursor and the palette *)

Lemma after_cursor_in_range (this : TagsInput) (op : Op) :
  cursor_in_range this -> cursor_in_range (after this op).
Proof.
  intros (c & Hcur & Hc).
  destruct (is_Add op) eqn:Hop.
  - destruct op; try discriminate.
    exists ((c + 1) mod Z.of_nat (length TagColors)). split.
    + rewrite after_Add, handleAddition_cursor, Hcur. now apply cursor_step.
    + apply Z.mod_pos_bound. lia.
  - exists c. split; [|exact Hc]. now rewrite cursor_moves_only_on_add.
Qed.

(** X14.  Once the cursor is an index of the palette it stays one,
    whatever the operations, and every tag added afterwards is stored
    with a colour of the palette. *)
Theorem palette_colour_assigned (this : TagsInput) (ops : list Op) (reactTag : IReactTag.t) :
  cursor_in_range this ->
  cursor_in_range (run this ops)
  /\ exists color,
       In color TagColors
       /\ collection (after (run this ops) (Add reactTag))
          = collection (run this ops)
            ++ [IReactTag.mk (IReactTag.id reactTag)
                  (ReactTagHtml (IReactTag.id reactTag) (Some color)) (Some color)].
Proof.
  intros H0.
  assert (cursor_in_range (run this ops)) as H.
  { revert this H0. induction ops as [|op ops IH]; intros this H0; [exact H0|].
    rewrite run_cons. apply IH. now apply after_cursor_in_range. }
  split; [exact H|].
  destruct H as (c & Hcur & Hc).
  destruct (array_get_in_range c Hc) as (color & Hget & Hnth).
  exists color. split; [eapply nth_error_In; exact Hnth|].
  rewrite after_Add, handleAddition_collection. unfold coloured.
  now rewrite Hcur, Hget.
Qed.

(** X15.  With an empty palette an addition stores its tag without a
    colour and leaves the cursor at [NaN]. *)
Theorem empty_palette (this : TagsInput) (reactTag : IReactTag.t) :
  TagColors = [] ->
  collection (after this (Add reactTag))
  = collection this
    ++ [IReactTag.mk (IReactTag.id reactTag) (ReactTagHtml (IReactTag.id reactTag) None) None]
  /\ State.currentTagColorIndex (state (after this (Add reactTag))) = NaN.
Proof.
  intros E.
  rewrite after_Add, handleAddition_collection, handleAddition_cursor.
  unfold coloured. rewrite E.
  assert (forall x, @array_get string [] x = None) as Hget.
  { intros [|z]; simpl; [reflexivity|].
    destruct (z <? 0); [reflexivity|]. now destruct (Z.to_nat z). }
  rewrite Hget. split; [reflexivity|].
  now destruct (State.currentTagColorIndex (state this)).
Qed.

(** *** What changes what *)

(** X16.  The Collection never changes behind the caller's back: when an
    operation leaves another Collection than it found, either it notified
    with the new list, or it was a refresh with another [tags] array,
    which is the caller's own doing. *)
Theorem silent_change_is_refresh (this : TagsInput) (op : Op) :
  collection (after this op) <> collection this ->
  emitted this op = [onChange (toITags (collection (after this op)))]
  \/ exists newProps,
       op = Refresh newProps
       /\ strict_neq (Props.tags (props this)) (Props.tags newProps) = true
       /\ emitted this op = [].
Proof.
  intros Hchanged.
  destruct op as [reactTag|newTag|i event|tag fromIndex toIndex|newProps|event|].
  - left. reflexivity.
  - left. revert Hchanged. unfold after, emitted. simpl.
    destruct (handleEditedTag_cases this newTag)
      as [[e ->]|[->|(tag & selectedTag & _ & _ & _ & ->)]];
      [contradiction | contradiction | reflexivity].
  - left. revert Hchanged. unfold after, emitted. simpl. unfold handleDelete.
    destruct (strict_eq_keyCode _ _); [contradiction | reflexivity].
  - left. reflexivity.
  - right. exists newProps. revert Hchanged.
    unfold after, emitted. simpl. unfold receiveProps, componentDidUpdate. simpl.
    destruct (strict_neq _ _); [auto | contradiction].
  - exfalso. apply Hchanged. unfold after. simpl.
    destruct (handleTagClick this event) as [[this' events]|e] eqn:E; [|reflexivity].
    apply handleTagClick_collection in E. tauto.
  - exfalso. now apply Hchanged.
Qed.

Lemma after_selectedTag (this : TagsInput) (op : Op) :
  State.selectedTag (state (after this op)) = State.selectedTag (state this)
  \/ exists event tag,
       op = Click event /\ ctrlKey event = true
       /\ getTag this (innerText_of event) = Return tag
       /\ State.selectedTag (state (after this op)) = Some tag.
Proof.
  destruct op as [reactTag|newTag|i event|tag fromIndex toIndex|newProps|event|].
  - now left.
  - left. unfold after. simpl.
    destruct (handleEditedTag_cases this newTag)
      as [[e ->]|[->|(tag & selectedTag & _ & _ & _ & ->)]]; reflexivity.
  - left. rewrite after_Delete. unfold handleDelete.
    now destruct (strict_eq_keyCode _ _).
  - now left.
  - left. rewrite after_Refresh. unfold receiveProps, componentDidUpdate. simpl.
    now destruct (strict_neq _ _).
  - unfold after. simpl. unfold handleTagClick. fold (innerText_of event).
    destruct (getTag this (innerText_of event)) as [tag|e] eqn:Hget; [|now left].
    destruct (ctrlKey event) eqn:Hctrl.
    + right. exists event, tag. auto.
    + left. destruct (shiftKey event && _); [reflexivity|].
      now destruct (Props.onTagClick (props this)).
  - now left.
Qed.

(** X17.  Only a control-click on a displayed name sets [selectedTag],
    to the tag of that name; nothing ever resets it: once a tag has been
    selected, [selectedTag] holds a tag after every further operation. *)
Theorem selection_never_cleared (this : TagsInput) (ops : list Op) :
  (forall op,
     State.selectedTag (state (after this op)) <> State.selectedTag (state this) ->
     exists event tag,
       op = Click event /\ ctrlKey event = true
       /\ getTag this (innerText_of event) = Return tag
       /\ State.selectedTag (state (after this op)) = Some tag)
  /\ (State.selectedTag (state this) <> None ->
      State.selectedTag (state (run this ops)) <> None).
Proof.
  split.
  - intros op Hchanged.
    destruct (after_selectedTag this op) as [E|H]; [contradiction | exact H].
  - revert this. induction ops as [|op ops IH]; intros this H0; [exact H0|].
    rewrite run_cons. apply IH.
    destruct (after_selectedTag this op) as [E|(event & tag & _ & _ & _ & E)];
      rewrite E; [exact H0 | discriminate].
Qed.

Lemma firstn_skipn_middle {A : Type} (front : list A) (x : A) (back : list A) :
  firstn (length front) (front ++ x :: back) = front
  /\ skipn (S (length front)) (front ++ x :: back) = back.
Proof.
  induction front as [|a front [IH1 IH2]]; simpl; [now split|].
  split; [now f_equal | exact IH2].
Qed.

Lemma replace_unique_name (key : string) (new : IReactTag.t) (l : list IReactTag.t)
    (i : nat) (old : IReactTag.t) :
  NoDup (map IReactTag.id l) ->
  nth_error l i = Some old ->
  IReactTag.id old = key ->
  map (fun t => if String.eqb (IReactTag.id t) key then new else t) l
  = replace_at i new l.
Proof.
  intros Hnd Hnth Hid. subst key. apply nth_error_split in Hnth.
  destruct Hnth as (front & back & -> & <-).
  unfold replace_at.
  destruct (firstn_skipn_middle front old back) as [-> ->].
  rewrite map_app in Hnd. simpl in Hnd.
  apply NoDup_remove_2 in Hnd.
  rewrite map_app. simpl. rewrite String.eqb_refl.
  f_equal; [|f_equal]; rewrite <- map_id; apply map_ext_in; intros t Ht;
    (destruct (String.eqb_spec (IReactTag.id t) (IReactTag.id old)) as [E|E];
     [|reflexivity]);
    exfalso; apply Hnd; apply in_or_app; [left|right];
    rewrite <- E; now apply in_map.
Qed.

(** X18.  In a Collection with pairwise-distinct names, a Rename/Recolor
    that passes the duplicate check changes exactly the entry of the
    selected name: the Collection is the old one with the new tag at that
    one position. *)
Theorem rename_replaces_one (this : TagsInput) (newTag : ITag.t)
    (selectedTag old : IReactTag.t) (i : nat) :
  unique this ->
  State.selectedTag (state this) = Some selectedTag ->
  nth_error (collection this) i = Some old ->
  IReactTag.id old = IReactTag.id selectedTag ->
  ITag.name newTag = IReactTag.id selectedTag \/ ~ In (ITag.name newTag) (names this) ->
  collection (after this (Rename (Some newTag)))
  = replace_at i (toReactTag_element newTag) (collection this).
Proof.
  intros Hu Hsel Hnth Hid Hok. unfold after. simpl.
  rewrite (handleEditedTag_applied this newTag selectedTag Hsel Hok).
  unfold renamed. unfold collection at 1. simpl.
  now apply replace_unique_name with old.
Qed.

(** X19.  Clicking a tag and closing the editor never touch the
    Collection or the cursor and never send a "tags changed"
    notification, whether the click finds its tag or throws. *)
Theorem selection_interface_frame (this : TagsInput) (op : Op) :
  (exists event, op = Click event) \/ op = CloseModal ->
  collection (after this op) = collection this
  /\ State.currentTagColorIndex (state (after this op))
     = State.currentTagColorIndex (state this)
  /\ forall tags, ~ In (onChange tags) (emitted this op).
Proof.
  intros [[event ->] | ->].
  - unfold after, emitted. simpl.
    destruct (handleTagClick this event) as [[this' events]|e] eqn:E.
    + now apply handleTagClick_collection in E.
    + repeat split. intros tags [].
  - repeat split. intros tags [].
Qed.

(** X20.  Confirming the editor twice with the same data leaves the
    Collection the first confirmation left, whether the second one is
    applied, declined or throws. *)
Theorem rename_twice (this : TagsInput) (newTag : option ITag.t) :
  collection (run this [Rename newTag; Rename newTag])
  = collection (run this [Rename newTag]).
Proof.
  change (collection (after (after this (Rename newTag)) (Rename newTag))
          = collection (after this (Rename newTag))).
  assert (forall that result,
            handleEditedTag that newTag = result ->
            after that (Rename newTag)
            = match result with Return (this', _) => this' | Throw _ => that end) as Hafter
    by (intros that result <-; reflexivity).
  destruct (handleEditedTag_cases this newTag)
    as [[e H]|[H|(tag & selectedTag & -> & Hsel & Hok & H)]].
  - rewrite (Hafter this _ H). now rewrite (Hafter this _ H).
  - rewrite (Hafter this _ H). now rewrite (Hafter this _ H).
  - rewrite (Hafter this _ H).
    destruct (handleEditedTag_cases (renamed this tag selectedTag) (Some tag))
      as [[e H']|[H'|(tag' & selectedTag' & Htag & Hsel' & _ & H')]];
      rewrite (Hafter _ _ H'); try reflexivity.
    injection Htag as <-.
    simpl in Hsel'. rewrite Hsel in Hsel'. injection Hsel' as <-.
    unfold renamed, collection. simpl. rewrite map_map.
    apply map_ext. intros t.
    destruct (String.eqb_spec (IReactTag.id t) (IReactTag.id selectedTag)) as [Et|Et].
    + now destruct (String.eqb _ _).
    + now destruct (String.eqb_spec (IReactTag.id t) (IReactTag.id selectedTag)).
Qed.

(** X21.  Dragging the tag found at [fromIndex] to a [toIndex] at or past
    the last position puts it at the end of the Collection. *)
Theorem reorder_to_end (this : TagsInput) (tag : IReactTag.t) (fromIndex toIndex : Z) :
  0 <= fromIndex ->
  nth_error (collection this) (Z.to_nat fromIndex) = Some tag ->
  Z.of_nat (length (collection this)) - 1 <= toIndex ->
  collection (after this (Reorder tag fromIndex toIndex))
  = remove_at (Z.to_nat fromIndex) (collection this) ++ [tag].
Proof.
  intros Hfrom Hnth Hto.
  assert (Z.to_nat fromIndex < length (collection this))%nat as Hlt
    by (apply nth_error_Some; congruence).
  rewrite after_Reorder, handleDrag_collection.
  rewrite splice_delete_one by lia.
  rewrite splice_insert_one.
  set (shortened := remove_at (Z.to_nat fromIndex) (collection this)).
  assert (length shortened = (length (collection this) - 1)%nat) as Hlen
    by (apply remove_at_length; lia).
  assert (splice_start (length shortened) toIndex = length shortened) as ->.
  { unfold splice_start. destruct (Z.ltb_spec toIndex 0); lia. }
  unfold insert_at. now rewrite firstn_all, skipn_all.
Qed.

(** X22.  A negative [fromIndex] counts from the end: dragging with
    [fromIndex = -k], for [k] between one and the length, removes the
    [k]-th entry from the end before the tag is inserted. *)
Theorem reorder_from_negative (this : TagsInput) (tag : IReactTag.t) (fromIndex toIndex : Z) :
  - Z.of_nat (length (collection this)) <= fromIndex < 0 ->
  collection (after this (Reorder tag fromIndex toIndex))
  = insert_at (splice_start (length (collection this) - 1) toIndex) tag
      (remove_at (Z.to_nat (Z.of_nat (length (collection this)) + fromIndex))
         (collection this)).
Proof.
  intros Hfrom.
  set (position := Z.to_nat (Z.of_nat (length (collection this)) + fromIndex)).
  assert (splice (collection this) fromIndex 1 [] = remove_at position (collection this))
    as E.
  { unfold splice, splice_start, remove_at.
    destruct (Z.ltb_spec fromIndex 0); [|lia].
    replace (Z.to_nat (Z.max (Z.of_nat (length (collection this)) + fromIndex) 0))
      with position by (unfold position; lia).
    replace (Z.to_nat (Z.min (Z.max 1 0)
                         (Z.of_nat (length (collection this) - position))))
      with 1%nat by (unfold position; lia).
    now rewrite Nat.add_1_r. }
  rewrite after_Reorder, handleDrag_collection, E, splice_insert_one.
  rewrite remove_at_length by (unfold position; lia).
  reflexivity.
Qed.

End Component.


(** ** The scenarios, evaluated *)

Ltac distinct_names :=
  repeat (constructor; [simpl; intuition discriminate|]); constructor.

(** The scenario of the three-colour palette: from the empty Collection
    with the cursor at [0], adding [A] and [B], deleting position [0] and
    dragging [B] from [0] to [0]. *)
Example scenario_add_delete_reorder :
  let start := constructor noProps 0 in
  let afterA := after palette start (Add (typed "A")) in
  let afterB := after palette afterA (Add (typed "B")) in
  let afterDelete := after palette afterB (Delete 0 mouse) in
  let afterDrag := after palette afterDelete (Reorder tagB 0 0) in
  state afterA = State.mk [tagA] (Int 1) None false
  /\ state afterB = State.mk [tagA; tagB] (Int 2) None false
  /\ collection afterDelete = [tagB]
  /\ collection afterDrag = [tagB].
Proof. repeat split. Qed.

(** C2 does not hold as stated: handed the name [A] by the widget while
    [A] is in the Collection, [handleAddition] appends a second [A] with
    the cursor's colour, moves the cursor on and calls [onChange]. *)
Lemma duplicate_add_appends :
  In "A" (names holdingAB)
  /\ handleAddition palette holdingAB (typed "A")
     = (mkTagsInput noProps
          (State.mk [tagA; tagB; stored "A" "green"] (Int 0) None false),
        [onChange [ITag.mk "A" (Some "red"); ITag.mk "B" (Some "blue");
                   ITag.mk "A" (Some "green")]]).
Proof. split; [now left | reflexivity]. Qed.

(** C1 does not hold as stated: dragging from position [0] with a tag
    argument named as the element at position [1] removes [A] and inserts
    a second [B]. *)
Lemma reorder_stale_tag_duplicates :
  unique holdingAB
  /\ collection (after palette holdingAB (Reorder tagB 0 0)) = [tagB; tagB]
  /\ ~ Forall unique (trace palette holdingAB [Reorder tagB 0 0]).
Proof.
  split; [unfold unique; simpl; distinct_names|].
  split; [reflexivity|].
  intros H. inversion H as [|? ? Hu _]; subst.
  unfold unique in Hu. simpl in Hu.
  inversion Hu as [|? ? Hnotin _]; subst.
  apply Hnotin. now left.
Qed.

(** A refreshed list is taken as it comes, repeated names included. *)
Lemma refresh_takes_duplicates :
  names (after palette holdingAB (Refresh refreshedTwice)) = ["X"; "X"].
Proof. reflexivity. Qed.

(** C3 does not hold as stated: a Delete that passes the backspace guard
    with an index out of range leaves the component as it was and still
    calls [onChange] once. *)
Lemma delete_out_of_range_notifies :
  is_operation (Delete 5 mouse) = true
  /\ step palette holdingAB (Delete 5 mouse)
     = Return (holdingAB,
               [onChange [ITag.mk "A" (Some "red"); ITag.mk "B" (Some "blue")]]).
Proof. split; reflexivity. Qed.

(** So does a drag that puts the tag back where it was. *)
Lemma reorder_in_place_notifies :
  step palette holdingAB (Reorder tagA 0 0)
  = Return (holdingAB,
            [onChange [ITag.mk "A" (Some "red"); ITag.mk "B" (Some "blue")]]).
Proof. reflexivity. Qed.

(** The scenario of recoloring [A] from red to yellow while [B] is
    there: [A] is yellow at its position, the editor is closed and the
    new list is notified. *)
Example scenario_recolor :
  step palette editingA (Rename (Some (ITag.mk "A" (Some "yellow"))))
  = Return (mkTagsInput noProps
              (State.mk [stored "A" "yellow"; tagB] (Int 2) (Some tagA) false),
            [onChange [ITag.mk "A" (Some "yellow"); ITag.mk "B" (Some "blue")]]).
Proof. reflexivity. Qed.

(** ** Instances *)

Lemma uniqueness_preserved_witness :
  unique (constructor noProps 0)
  /\ Forall unique (trace palette (constructor noProps 0) session).
Proof.
  assert (unique (constructor noProps 0)) as Hu by constructor.
  split; [exact Hu|].
  apply (uniqueness_preserved palette (constructor noProps 0) session Hu).
  simpl. repeat split; try (simpl; intuition discriminate).
  - exists tagB. split; reflexivity.
  - distinct_names.
Defined.

Lemma notification_per_commit_witness :
  emitted palette holdingAB (Delete 5 mouse)
  = [onChange (toITags (collection (after palette holdingAB (Delete 5 mouse))))]
  /\ carries [tagA; tagB] [ITag.mk "A" (Some "red"); ITag.mk "B" (Some "blue")]
  /\ emitted palette editingA (Rename (Some (ITag.mk "B" (Some "red")))) = [].
Proof.
  split; [|split].
  - exact (proj1 (notification_per_commit palette holdingAB (Delete 5 mouse)
                    _ _ eq_refl eq_refl)).
  - apply (proj2 (proj2 (notification_per_commit palette holdingAB (Delete 5 mouse)
                           _ _ eq_refl eq_refl))).
    now left.
  - exact (proj2 (proj1 (notification_per_commit palette editingA
                           (Rename (Some (ITag.mk "B" (Some "red"))))
                           _ _ eq_refl eq_refl))).
Defined.

Lemma color_rotation_witness :
  State.currentTagColorIndex (state (run palette (constructor noProps 1) session)) = Int 0
  /\ collection (run palette (constructor noProps 1) [Add (typed "A"); Add (typed "B")])
     = collection (run palette (constructor noProps 1) [Add (typed "A")])
       ++ [stored "B" "green"].
Proof.
  assert (0 <= 1 < Z.of_nat (length palette)) as Hc by (simpl; lia).
  pose proof (color_rotation palette noProps 1 session Hc) as H.
  cbv zeta in H. destruct H as (_ & Hcur & Hcol).
  split; [exact Hcur|].
  destruct (Hcol [Add (typed "A")] (typed "B") (tl (tl session)) eq_refl)
    as (color & Hcolor & Happend).
  simpl in Hcolor. injection Hcolor as <-. exact Happend.
Defined.

Lemma rename_rejected_witness :
  step palette editingA (Rename (Some (ITag.mk "B" (Some "yellow"))))
  = Return (editingA, []).
Proof.
  apply (rename_rejected palette editingA (ITag.mk "B" (Some "yellow")) tagA).
  - reflexivity.
  - discriminate.
  - simpl. auto.
Defined.

Lemma rename_applied_witness :
  exists this',
    step palette editingA (Rename (Some (ITag.mk "A" (Some "yellow"))))
    = Return (this', [onChange (toITags (collection this'))])
    /\ nth_error (collection this') 0 = Some (stored "A" "yellow")
    /\ selection editingA = Some tagA
    /\ selection this' = None.
Proof.
  destruct (rename_applied palette editingA (ITag.mk "A" (Some "yellow")) tagA
              eq_refl (or_introl eq_refl))
    as (this' & Hstep & _ & Hnth & _ & Hcleared & _).
  exists this'. split; [exact Hstep|]. split; [|split; [reflexivity | exact Hcleared]].
  exact (Hnth 0%nat tagA eq_refl).
Defined.

Lemma delete_behaviour_witness :
  step palette holdingAB (Delete 0 backspaceKey) = Return (holdingAB, [])
  /\ exists this' events,
       step palette holdingAB (Delete 0 mouse) = Return (this', events)
       /\ collection this' = [tagB].
Proof.
  destruct (delete_behaviour palette holdingAB 0 backspaceKey) as [Hback _].
  destruct (delete_behaviour palette holdingAB 0 mouse) as [_ Hmouse].
  split; [exact (Hback eq_refl)|].
  destruct (Hmouse eq_refl) as (this' & events & Hstep & Hin & _).
  exists this', events. split; [exact Hstep|].
  assert (0 <= 0 < Z.of_nat (length (collection holdingAB))) as Hi by (simpl; lia).
  exact (proj1 (Hin Hi)).
Defined.

Lemma reorder_semantics_witness :
  exists this',
    step palette holdingAB (Reorder tagA 0 1)
    = Return (this', [onChange (toITags (collection this'))])
    /\ collection this' = [tagB; tagA].
Proof.
  assert (0 <= 0 < Z.of_nat (length (collection holdingAB))) as Hfrom by (simpl; lia).
  assert (0 <= 1 < Z.of_nat (length (collection holdingAB))) as Hto by (simpl; lia).
  destruct (reorder_semantics palette holdingAB tagA 0 1 Hfrom Hto)
    as (this' & Hstep & Hcoll & _).
  exists this'. split; [exact Hstep | exact Hcoll].
Defined.

Lemma refresh_frame_witness :
  exists this',
    step palette holdingAB (Refresh refreshed) = Return (this', [])
    /\ toITags (collection this') = [ITag.mk "X" (Some "pink"); ITag.mk "Y" (Some "pink")]
    /\ State.currentTagColorIndex (state this') = Int 2.
Proof.
  destruct (refresh_frame palette holdingAB refreshed eq_refl)
    as (this' & Hstep & _ & Hlist & Hcursor & _).
  exists this'. split; [exact Hstep|]. split; [exact Hlist | exact Hcursor].
Defined.

Lemma lookup_contract_witness :
  (exists tag, getTag holdingAB "B" = Return tag /\ IReactTag.id tag = "B")
  /\ getTag holdingAB "Z" = Throw (Error "No tag by id: Z")
  /\ step palette holdingAB (Click (ctrlClick "Z")) = Throw (Error "No tag by id: Z").
Proof.
  destruct (lookup_contract palette holdingAB "B") as [Hfound _].
  destruct (lookup_contract palette holdingAB "Z") as [_ Hmissing].
  split.
  - destruct Hfound as (tag & Hget & _ & Hid); [simpl; auto|].
    exists tag. split; assumption.
  - destruct Hmissing as [Hget Hclick]; [simpl; intuition discriminate|].
    split; [exact Hget|]. exact (Hclick (ctrlClick "Z") eq_refl).
Defined.


(** ** Instances of the further properties *)

Lemma markup_kept_witness :
  all_marked (run palette (constructor noProps 0) session).
Proof.
  apply (markup_kept palette noProps 0 session).
  unfold session. repeat constructor.
Defined.

Lemma echo_refresh_restores_witness :
  collection (after palette holdingAB (Refresh echoed)) = [tagA; tagB].
Proof.
  apply (echo_refresh_restores palette holdingAB echoed
           (mkTagArray 9 [ITag.mk "A" (Some "red"); ITag.mk "B" (Some "blue")])).
  - repeat constructor.
  - reflexivity.
  - reflexivity.
Defined.

Lemma getTag_first_witness :
  exists i, nth_error (collection holdingAB) i = Some tagB
            /\ IReactTag.id tagB = "B"
            /\ forall j other, (j < i)%nat ->
                 nth_error (collection holdingAB) j = Some other ->
                 IReactTag.id other <> "B".
Proof. exact (getTag_first holdingAB "B" tagB eq_refl). Defined.

Lemma ctrl_click_selects_witness :
  exists tag,
    step palette holdingAB (Click (ctrlClick "A"))
    = Return (mkTagsInput noProps (State.mk [tagA; tagB] (Int 2) (Some tag) true), [])
    /\ In tag [tagA; tagB]
    /\ IReactTag.id tag = "A".
Proof.
  apply (ctrl_click_selects palette holdingAB (ctrlClick "A")).
  - simpl. auto.
  - reflexivity.
Defined.

Lemma click_dispatch_witness :
  exists tag,
    In tag [tagA; tagB]
    /\ IReactTag.id tag = "B"
    /\ step palette listening (Click (shiftClick "B"))
       = Return (listening, [onTagClick (Some (ITag.mk "B" (IReactTag.color tag)))]).
Proof.
  apply (click_dispatch palette listening (shiftClick "B")).
  - simpl. auto.
  - reflexivity.
Defined.

Lemma select_then_rename_witness :
  collection (run palette holdingAB
                [Click (ctrlClick "A"); Rename (Some (ITag.mk "A" (Some "yellow")))])
  = [stored "A" "yellow"; tagB].
Proof.
  assert (In (innerText_of (ctrlClick "A")) (names holdingAB)) as Hin by (simpl; auto).
  exact (proj1 (select_then_rename palette holdingAB (ctrlClick "A")
                  (ITag.mk "A" (Some "yellow")) Hin eq_refl (or_introl eq_refl))).
Defined.

Lemma rename_throws_witness :
  step palette holdingAB (Rename (Some (ITag.mk "A" (Some "yellow")))) = Throw TypeError
  /\ exists this' events,
       step palette editingA (Rename (Some (ITag.mk "A" (Some "yellow"))))
       = Return (this', events).
Proof.
  split.
  - apply (proj1 (rename_throws palette holdingAB (Some (ITag.mk "A" (Some "yellow"))))).
    now right.
  - apply (proj2 (rename_throws palette editingA (Some (ITag.mk "A" (Some "yellow")))));
      discriminate.
Defined.

Lemma rename_stale_selection_witness :
  step palette orphaned (Rename (Some (ITag.mk "Z" (Some "pink"))))
  = Return (mkTagsInput noProps
              (State.mk [tagA; tagB] (Int 2) (Some (stored "Z" "green")) false),
            [onChange [ITag.mk "A" (Some "red"); ITag.mk "B" (Some "blue")]]).
Proof.
  apply (rename_stale_selection palette orphaned (ITag.mk "Z" (Some "pink"))
           (stored "Z" "green")).
  - reflexivity.
  - simpl. intuition discriminate.
  - now left.
Defined.

Lemma add_then_delete_last_witness :
  collection (run palette holdingAB [Add (typed "C"); Delete 2 mouse]) = [tagA; tagB].
Proof.
  apply (add_then_delete_last palette holdingAB (typed "C") mouse).
  - simpl. intuition discriminate.
  - reflexivity.
Defined.

Lemma reorder_back_witness :
  collection (run palette holdingAB [Reorder tagA 0 1; Reorder tagA 1 0]) = [tagA; tagB].
Proof.
  apply (reorder_back palette holdingAB tagA 0 1).
  - simpl. lia.
  - simpl. lia.
  - reflexivity.
Defined.

Lemma reorder_permutation_witness :
  length (collection (after palette holdingAB (Reorder tagA 0 5))) = 2%nat.
Proof.
  assert (0 <= 0) as H0 by lia.
  exact (proj2 (reorder_permutation palette holdingAB tagA 0 5 H0 eq_refl)).
Defined.

Lemma reorder_from_past_end_witness :
  collection (after palette holdingAB (Reorder tagA 2 0)) = [tagA; tagA; tagB].
Proof.
  assert (Z.of_nat (length (collection holdingAB)) <= 2) as H by (simpl; lia).
  exact (proj1 (reorder_from_past_end palette holdingAB tagA 2 0 H)).
Defined.

Lemma palette_colour_assigned_witness :
  cursor_in_range palette (run palette holdingAB session).
Proof.
  assert (cursor_in_range palette holdingAB) as H
    by (exists 2; split; [reflexivity | simpl; lia]).
  exact (proj1 (palette_colour_assigned palette holdingAB session (typed "C") H)).
Defined.

Lemma empty_palette_witness :
  State.currentTagColorIndex (state (after [] holdingAB (Add (typed "C")))) = NaN.
Proof. exact (proj2 (empty_palette [] holdingAB (typed "C") eq_refl)). Defined.

Lemma silent_change_is_refresh_witness :
  emitted palette holdingAB (Delete 0 mouse)
  = [onChange (toITags (collection (after palette holdingAB (Delete 0 mouse))))]
  \/ exists newProps,
       Delete 0 mouse = Refresh newProps
       /\ strict_neq (Props.tags (props holdingAB)) (Props.tags newProps) = true
       /\ emitted palette holdingAB (Delete 0 mouse) = [].
Proof.
  apply (silent_change_is_refresh palette holdingAB (Delete 0 mouse)).
  discriminate.
Defined.

Lemma selection_never_cleared_witness :
  State.selectedTag (state (run palette editingA session)) <> None.
Proof.
  apply (proj2 (selection_never_cleared palette editingA session)).
  discriminate.
Defined.

Lemma rename_replaces_one_witness :
  collection (after palette editingA (Rename (Some (ITag.mk "C" (Some "yellow")))))
  = [stored "C" "yellow"; tagB].
Proof.
  apply (rename_replaces_one palette editingA (ITag.mk "C" (Some "yellow")) tagA tagA 0).
  - unfold unique. simpl. distinct_names.
  - reflexivity.
  - reflexivity.
  - reflexivity.
  - right. simpl. intuition discriminate.
Defined.

Lemma selection_interface_frame_witness :
  collection (after palette editingA CloseModal) = [tagA; tagB].
Proof.
  exact (proj1 (selection_interface_frame palette editingA CloseModal (or_intror eq_refl))).
Defined.

Lemma reorder_to_end_witness :
  collection (after palette holdingAB (Reorder tagA 0 7)) = [tagB; tagA].
Proof.
  apply (reorder_to_end palette holdingAB tagA 0 7).
  - lia.
  - reflexivity.
  - simpl. lia.
Defined.

Lemma reorder_from_negative_witness :
  collection (after palette holdingAB (Reorder tagB (-1) 0)) = [tagB; tagA].
Proof.
  apply (reorder_from_negative palette holdingAB tagB (-1) 0).
  simpl. lia.
Defined.
